(** * PyCalc: the expression pipeline of [calculator.operations] and
    [calculator.parser], embedded shallowly.

    Conventions of the embedding.
    - [Number] is Python's [float]: an IEEE 754 binary64, here Rocq's
      primitive [float] with its primitive arithmetic.
    - A Python [str] is a Rocq [string]; each [ascii] stands for the code
      point of the same number (U+0000 .. U+00FF).
    - A raising computation returns [Raise e]; [x ← c; k] sequences two
      computations and stops at the first exception.
    - The two Python lists that the parser uses as stacks ([ops] and
      [stack], touched only through [append], [pop] and [[-1]]) are kept
      top first; [output] and the token lists are kept in Python order. *)

From Stdlib Require Import ZArith Ascii String PrimFloat SpecFloat FloatOps.
From stdpp Require Import base option list gmap strings.

Local Open Scope Z_scope.

(** ** Numbers and exceptions *)

Definition Number : Type := float.

(** The texts of the [ValueError]s the two modules raise. *)
Inductive message : Type :=
  | SymbolNotSingleCharacter
      (* "Operation symbol must be a single character." *)
  | UnexpectedCharacter (position : nat) (character : ascii)
      (* f"Unexpected character at position {i}: '{ch}'" *)
  | CouldNotConvert (literal : string)
      (* float(): "could not convert string to float: ..." *)
  | MismatchedParentheses      (* "Mismatched parentheses" *)
  | InsufficientValues         (* "Insufficient values in expression" *)
  | InvalidToken               (* "Invalid token in RPN expression" *)
  | InvalidExpression.         (* "Invalid expression" *)

(** What the function stored in an [Operation] may raise. *)
Inductive func_exn : Type :=
  | ZeroDivisionError          (* "division by zero" *)
  | OverflowError
  | OtherError (name : string).

(** Exceptions, by the place that raises them: a [raise ValueError] of the
    calculator, a failed dictionary lookup, or an exception coming out of an
    operator's function (the spec's ArithmeticFailure), which [apply] lets
    through unchanged. *)
Inductive exn : Type :=
  | ValueError (m : message)
  | KeyError (key : string)
  | ArithmeticFailure (e : func_exn).

Inductive result (A : Type) : Type :=
  | Ok (a : A)
  | Raise (e : exn).
Arguments Ok {A} a.
Arguments Raise {A} e.

#[global] Instance result_ret : MRet result := fun _ a => Ok a.
#[global] Instance result_bind : MBind result := fun _ _ k c =>
  match c with
  | Ok a => k a
  | Raise e => Raise e
  end.

(** The objects [evaluate] can hand back: a float, or a list of floats. *)
Inductive pyobj : Type :=
  | PyFloat (x : Number)
  | PyList (xs : list Number).

Definition is_Number (v : pyobj) : bool :=
  match v with
  | PyFloat _ => true
  | PyList _ => false
  end.

(** Python's [==] on these objects: numeric comparison between floats,
    element-wise between lists, [False] across the two. *)
Fixpoint list_eqb (xs ys : list Number) : bool :=
  match xs, ys with
  | [], [] => true
  | x :: xs', y :: ys' => PrimFloat.eqb x y && list_eqb xs' ys'
  | _, _ => false
  end.

Definition py_eq (v w : pyobj) : bool :=
  match v, w with
  | PyFloat x, PyFloat y => PrimFloat.eqb x y
  | PyList xs, PyList ys => list_eqb xs ys
  | _, _ => false
  end.

(** ** calculator/operations.py *)

Record Operation : Type := {
  symbol : string;
  func : Number → Number → func_exn + Number;
  precedence : Z;
  associative : bool
}.

(** [Operation.__call__] *)
Definition call (op : Operation) (left right : Number) : result Number :=
  match func op left right with
  | inl e => Raise (ArithmeticFailure e)
  | inr v => Ok v
  end.

Record OperationEngine : Type := { _operations : gmap string Operation }.

(** [OperationEngine._safe_divide] *)
Definition _safe_divide (a b : Number) : func_exn + Number :=
  if PrimFloat.eqb b 0%float then inl ZeroDivisionError
  else inr (a / b)%float.

(** [OperationEngine.register]; [not symbol] holds of the empty string. *)
Definition register (self : OperationEngine) (symbol : string)
    (func : Number → Number → func_exn + Number) (precedence : Z)
    (associative : bool) : result OperationEngine :=
  if String.eqb symbol "" || negb (Nat.eqb (String.length symbol) 1)
  then Raise (ValueError SymbolNotSingleCharacter)
  else
    let op := {| symbol := symbol; func := func; precedence := precedence;
                 associative := associative |} in
    Ok {| _operations := <[symbol := op]> (_operations self) |}.

(** [OperationEngine.get] *)
Definition get (self : OperationEngine) (symbol : string) : result Operation :=
  match _operations self !! symbol with
  | Some op => Ok op
  | None => Raise (KeyError symbol)
  end.

(** [OperationEngine.has] *)
Definition has (self : OperationEngine) (symbol : string) : bool :=
  bool_decide (is_Some (_operations self !! symbol)).

(** [OperationEngine.apply] *)
Definition apply (self : OperationEngine) (symbol : string)
    (left right : Number) : result Number :=
  op ← get self symbol;
  call op left right.

Section Engine.

(** Python's [a ** b] on floats is computed by the C library's [pow], which
    has no counterpart among the primitive float operations: it is a
    parameter of the development. *)
Variable float_pow : Number → Number → func_exn + Number.

(** [OperationEngine._register_default_operations] *)
Definition _register_default_operations (self : OperationEngine)
    : result OperationEngine :=
  self ← register self "+" (λ a b, inr (a + b)%float) 1 true;
  self ← register self "-" (λ a b, inr (a - b)%float) 1 true;
  self ← register self "*" (λ a b, inr (a * b)%float) 2 true;
  self ← register self "/" _safe_divide 2 true;
  register self "^" float_pow 3 true.

(** The dictionary these five registrations build. *)
Definition default_operations : gmap string Operation :=
  <["^" := {| symbol := "^"; func := float_pow; precedence := 3;
              associative := true |}]>
  (<["/" := {| symbol := "/"; func := _safe_divide; precedence := 2;
               associative := true |}]>
  (<["*" := {| symbol := "*"; func := λ a b, inr (a * b)%float;
               precedence := 2; associative := true |}]>
  (<["-" := {| symbol := "-"; func := λ a b, inr (a - b)%float;
               precedence := 1; associative := true |}]>
  (<["+" := {| symbol := "+"; func := λ a b, inr (a + b)%float;
               precedence := 1; associative := true |}]> ∅)))).

(** [OperationEngine.__init__] *)
Definition OperationEngine_init : result OperationEngine :=
  _register_default_operations {| _operations := ∅ |}.

End Engine.

(** ** calculator/parser.py *)

Inductive Token : Type :=
  | NumberToken (value : Number)
  | OperatorToken (symbol : string)
  | LeftParenToken
  | RightParenToken.

Record ExpressionParser : Type := { engine : OperationEngine }.

(** [str.isspace] and [str.isdigit] on the code points below 256. *)
Definition isspace (ch : ascii) : bool :=
  let c := N_of_ascii ch in
  ((9 <=? c) && (c <=? 13) || (28 <=? c) && (c <=? 32)
   || (c =? 133) || (c =? 160))%N.

Definition isdigit (ch : ascii) : bool :=
  let c := N_of_ascii ch in
  ((48 <=? c) && (c <=? 57) || (c =? 178) || (c =? 179) || (c =? 185))%N.

(** *** [float(...)] on the literals the scanner cuts out

    A literal is made of [isdigit] characters and at most one dot. [float]
    accepts it when every digit is a decimal digit and there is at least
    one, and returns the binary64 nearest to the decimal value (ties to
    even, infinity on overflow); the superscript digits U+00B2, U+00B3 and
    U+00B9 satisfy [isdigit] but are refused. *)
Definition decimal_digit (ch : ascii) : option Z :=
  let c := Z.of_N (N_of_ascii ch) in
  if (48 <=? c) && (c <=? 57) then Some (c - 48) else None.

(** Reads the digits: the integer they spell without the dot, the number of
    digits after the dot, and whether any digit was seen. *)
Fixpoint read_decimal (s : string) (seen_dot any : bool) (m k : Z)
    : option (Z * Z) :=
  match s with
  | EmptyString => if any then Some (m, k) else None
  | String ch s' =>
      if Ascii.eqb ch "." then
        if seen_dot then None else read_decimal s' true any m k
      else
        match decimal_digit ch with
        | Some d =>
            read_decimal s' seen_dot true (10 * m + d)
              (if seen_dot then k + 1 else k)
        | None => None
        end
  end.

(** The binary64 nearest to [m / d], for [0 <= m] and [0 < d]: the quotient
    is taken with 66 bits or so and a sticky bit, then rounded once. *)
Definition nearest_ratio (m d : Z) : Number :=
  if m =? 0 then 0%float
  else
    let s := 66 - (Z.log2 m - Z.log2 d) in
    let num := if 0 <=? s then Z.shiftl m s else m in
    let den := if 0 <=? s then d else Z.shiftl d (- s) in
    let sticky := if num mod den =? 0 then 0 else 1 in
    SF2Prim (binary_normalize prec emax (2 * (num / den) + sticky)
               (- s - 1) false).

Definition float_of_literal (s : string) : result Number :=
  match read_decimal s false false 0 0 with
  | Some (m, k) => Ok (nearest_ratio m (10 ^ k))
  | None => Raise (ValueError (CouldNotConvert s))
  end.

(** A loop [for x in xs: body] over a state, stopping at the first raise. *)
Fixpoint for_each {S A : Type} (body : S → A → result S) (st : S)
    (xs : list A) : result S :=
  match xs with
  | [] => Ok st
  | x :: xs' => st' ← body st x; for_each body st' xs'
  end.

Section Parser.

Variable self : ExpressionParser.

(** *** [_tokenise] *)
Section Tokenise.

Variable expression : string.

(** The inner [while i < n] of a number literal (lines 89-98). [rest] is
    [expression[i:]], so [i < n] holds exactly when [rest] is not empty and
    [expression[i]] is its first character. Returns the final [i]. *)
Fixpoint scan_number (rest : string) (i : nat) (has_dot : bool) : nat :=
  match rest with
  | EmptyString => i
  | String c rest' =>
      if isdigit c then scan_number rest' (i + 1) has_dot
      else if Ascii.eqb c "." && negb has_dot
           then scan_number rest' (i + 1) true
      else i
  end.

(** [expression[a:b]] for [a <= b <= n]. *)
Definition slice (a b : nat) : string := substring a (b - a) expression.

(** [i + 1 < n and expression[i + 1].isdigit()] *)
Definition digit_follows (i : nat) : bool :=
  match String.get (i + 1) expression with
  | Some c => isdigit c
  | None => false
  end.

(** [ch.isdigit() or (ch == "." and i + 1 < n and
    expression[i + 1].isdigit())] *)
Definition starts_number (i : nat) (ch : ascii) : bool :=
  isdigit ch || (Ascii.eqb ch "." && digit_follows i).

(** One iteration of the outer loop at cursor [i] with [ch = expression[i]]:
    the new cursor and token list. ([last_token] is written but never read.) *)
Definition tokenise_body (i : nat) (ch : ascii) (tokens : list Token)
    : result (nat * list Token) :=
  if isspace ch then Ok (i + 1, tokens)%nat
  else if starts_number i ch then
    let start := i in
    let has_dot := Ascii.eqb ch "." in
    let i := scan_number (slice (i + 1) (String.length expression)) (i + 1)
               has_dot in
    value ← float_of_literal (slice start i);
    Ok (i, tokens ++ [NumberToken value])
  else if Ascii.eqb ch "(" then Ok (i + 1, tokens ++ [LeftParenToken])%nat
  else if Ascii.eqb ch ")" then Ok (i + 1, tokens ++ [RightParenToken])%nat
  else if has (engine self) (String ch "")
       then Ok (i + 1, tokens ++ [OperatorToken (String ch "")])%nat
  else Raise (ValueError (UnexpectedCharacter i ch)).

(** The outer [while i < n]: [i < n] holds exactly when [expression[i]]
    exists. [None] only when [fuel] iterations were not enough. *)
Fixpoint tokenise_loop (fuel : nat) (i : nat) (tokens : list Token)
    : option (result (list Token)) :=
  match String.get i expression with
  | None => Some (Ok tokens)
  | Some ch =>
      match fuel with
      | O => None
      | S fuel' =>
          match tokenise_body i ch tokens with
          | Ok (i', tokens') => tokenise_loop fuel' i' tokens'
          | Raise e => Some (Raise e)
          end
      end
  end.

(** Every iteration moves the cursor forward, so [n] iterations are enough
    ([tokenise_loop_fuel] below): the default is never used. *)
Definition _tokenise : result (list Token) :=
  default (Ok []) (tokenise_loop (String.length expression) 0 []).

(** The states [(i, tokens)] in which the outer loop tests its condition. *)
Inductive reaches : nat → list Token → Prop :=
  | reaches_start : reaches 0 []
  | reaches_next i ch tokens i' tokens' :
      reaches i tokens →
      String.get i expression = Some ch →
      tokenise_body i ch tokens = Ok (i', tokens') →
      reaches i' tokens'.

End Tokenise.

(** *** [_to_rpn] *)

Record rpn_state : Type := {
  output : list Token;
  ops : list Token;
  prev : option Token
}.

(** [prev is None or isinstance(prev, OperatorToken) or
    isinstance(prev, LeftParenToken)] *)
Definition unary_position (prev : option Token) : bool :=
  match prev with
  | None | Some (OperatorToken _) | Some LeftParenToken => true
  | _ => false
  end.

(** The precedence loop (lines 151-158) for the current operator [cur]. *)
Fixpoint pop_by_precedence (cur : string) (ops output : list Token)
    : result (list Token * list Token) :=
  match ops with
  | OperatorToken top :: ops' =>
      top_op ← get (engine self) top;
      cur_op ← get (engine self) cur;
      if precedence top_op >=? precedence cur_op
      then pop_by_precedence cur ops' (output ++ [OperatorToken top])
      else Ok (ops, output)
  | _ => Ok (ops, output)
  end.

(** The loop of a right parenthesis (lines 170-171). *)
Fixpoint pop_to_paren (ops output : list Token) : list Token * list Token :=
  match ops with
  | [] => ([], output)
  | LeftParenToken :: _ => (ops, output)
  | top :: ops' => pop_to_paren ops' (output ++ [top])
  end.

(** The body of [for token in tokens]. *)
Definition rpn_body (st : rpn_state) (token : Token) : result rpn_state :=
  match token with
  | NumberToken _ =>
      Ok {| output := output st ++ [token]; ops := ops st;
            prev := Some token |}
  | OperatorToken sym =>
      let output :=
        if String.eqb sym "-" && unary_position (prev st)
        then output st ++ [NumberToken 0%float] else output st in
      '(ops, output) ← pop_by_precedence sym (ops st) output;
      Ok {| output := output; ops := token :: ops; prev := Some token |}
  | LeftParenToken =>
      Ok {| output := output st; ops := token :: ops st;
            prev := Some token |}
  | RightParenToken =>
      let '(ops, output) := pop_to_paren (ops st) (output st) in
      match ops with
      | LeftParenToken :: ops' =>
          Ok {| output := output; ops := ops'; prev := Some token |}
      | _ => Raise (ValueError MismatchedParentheses)
      end
  end.

(** The final [while ops] (lines 179-183). *)
Fixpoint drain (ops output : list Token) : result (list Token) :=
  match ops with
  | [] => Ok output
  | LeftParenToken :: _ => Raise (ValueError MismatchedParentheses)
  | op :: ops' => drain ops' (output ++ [op])
  end.

Definition rpn_start : rpn_state :=
  {| output := []; ops := []; prev := None |}.

Definition _to_rpn (tokens : list Token) : result (list Token) :=
  st ← for_each rpn_body rpn_start tokens;
  drain (ops st) (output st).

(** *** [_eval_rpn] *)

(** The body of [for token in tokens]; [len(stack) < 2] is the failure of
    the two pops. *)
Definition eval_body (stack : list Number) (token : Token)
    : result (list Number) :=
  match token with
  | NumberToken value => Ok (value :: stack)
  | OperatorToken sym =>
      match stack with
      | b :: a :: stack' =>
          res ← apply (engine self) sym a b;
          Ok (res :: stack')
      | _ => Raise (ValueError InsufficientValues)
      end
  | _ => Raise (ValueError InvalidToken)
  end.

(** The last line is [return stack]: the list itself is handed back. *)
Definition _eval_rpn (tokens : list Token) : result pyobj :=
  stack ← for_each eval_body [] tokens;
  if negb (Nat.eqb (length stack) 1)
  then Raise (ValueError InvalidExpression)
  else Ok (PyList (rev stack)).

(** *** [evaluate] *)
Definition evaluate (expression : string) : result pyobj :=
  tokens ← _tokenise expression;
  rpn ← _to_rpn tokens;
  _eval_rpn rpn.

End Parser.

Section Default.

Variable float_pow : Number → Number → func_exn + Number.

(** [ExpressionParser.__init__]: [self.engine = engine or OperationEngine()];
    an engine object is always true. *)
Definition ExpressionParser_init (engine : option OperationEngine)
    : result ExpressionParser :=
  match engine with
  | Some e => Ok {| engine := e |}
  | None => e ← OperationEngine_init float_pow; Ok {| engine := e |}
  end.

(** [eval_expr] of tests/test_parser.py: [ExpressionParser().evaluate(expr)]. *)
Definition eval_expr (expr : string) : result pyobj :=
  parser ← ExpressionParser_init None;
  evaluate parser expr.

End Default.

(** A power function for the examples: exact on squares and cubes, and
    refusing every other exponent. *)
Definition sample_pow (a b : Number) : func_exn + Number :=
  if PrimFloat.eqb b 2%float then inr (a * a)%float
  else if PrimFloat.eqb b 3%float then inr (a * a * a)%float
  else inl OverflowError.

(** The parser that [ExpressionParser()] builds. *)
Definition default_parser (pow : Number → Number → func_exn + Number)
    : ExpressionParser :=
  {| engine := {| _operations := default_operations pow |} |}.

Definition sample_parser : ExpressionParser := default_parser sample_pow.

(** The tokens that can appear in a postfix sequence, and the entries the
    operator stack can hold. *)
Definition postfix_token (t : Token) : bool :=
  match t with
  | NumberToken _ | OperatorToken _ => true
  | _ => false
  end.

Definition stack_entry (t : Token) : bool :=
  match t with
  | OperatorToken _ | LeftParenToken => true
  | _ => false
  end.

(** Kinds of tokens, for counting. *)
Definition is_number (t : Token) : bool :=
  match t with
  | NumberToken _ => true
  | _ => false
  end.

Definition is_operator (t : Token) : bool :=
  match t with
  | OperatorToken _ => true
  | _ => false
  end.


(** A token the parser's engine can process: an operator token carries a
    registered symbol. *)
Definition registered_token (self : ExpressionParser) (t : Token) : bool :=
  match t with
  | OperatorToken sym => has (engine self) sym
  | _ => true
  end.

(** An exception with its reported position, if it has one, moved [k]
    characters to the right. *)
Definition shift_position (k : nat) (e : exn) : exn :=
  match e with
  | ValueError (UnexpectedCharacter i ch) =>
      ValueError (UnexpectedCharacter (k + i) ch)
  | _ => e
  end.

Definition shift_result {A : Type} (k : nat) (r : result A) : result A :=
  match r with
  | Ok a => Ok a
  | Raise e => Raise (shift_position k e)
  end.

Fixpoint all_whitespace (s : string) : bool :=
  match s with
  | EmptyString => true
  | String ch s' => isspace ch && all_whitespace s'
  end.

Definition is_left_paren (t : Token) : bool :=
  match t with
  | LeftParenToken => true
  | _ => false
  end.

(** The parentheses of [tokens] nest properly when read at nesting depth
    [depth]: no right parenthesis comes at depth 0 and the depth ends at 0. *)
Fixpoint balanced (depth : nat) (tokens : list Token) : bool :=
  match tokens with
  | [] => Nat.eqb depth 0
  | LeftParenToken :: tokens' => balanced (S depth) tokens'
  | RightParenToken :: tokens' =>
      match depth with
      | O => false
      | S depth' => balanced depth' tokens'
      end
  | _ :: tokens' => balanced depth tokens'
  end.

(** The operands an infix token list denotes, in order: its number tokens,
    and a zero for every [-] that follows nothing, an operator or a left
    parenthesis; [prev] is the token before the list. *)
Fixpoint operands (prev : option Token) (tokens : list Token) : list Token :=
  match tokens with
  | [] => []
  | t :: tokens' =>
      match t with
      | NumberToken _ => [t]
      | OperatorToken sym =>
          if String.eqb sym "-" && unary_position prev
          then [NumberToken 0%float] else []
      | _ => []
      end ++ operands (Some t) tokens'
  end.

(** ** calculator/history.py *)

(** The [result] field is annotated [float]; it holds whatever object it is
    given. *)
Record HistoryRecord : Type := {
  record_expression : string;
  record_result : pyobj
}.

Record HistoryManager : Type := { _records : list HistoryRecord }.

(** [HistoryManager.__init__] *)
Definition HistoryManager_init : HistoryManager := {| _records := [] |}.

(** [HistoryManager.add] *)
Definition add (self : HistoryManager) (expression : string)
    (result : pyobj) : HistoryManager :=
  {| _records :=
       _records self
       ++ [{| record_expression := expression; record_result := result |}] |}.

(** [HistoryManager.get_all]: a copy of the list. *)
Definition get_all (self : HistoryManager) : list HistoryRecord :=
  _records self.

(** [HistoryManager.clear] *)
Definition clear (self : HistoryManager) : HistoryManager :=
  {| _records := [] |}.

(** ** main.py *)

(** [str.strip()] removes the [isspace] characters at both ends. *)
Fixpoint lstrip (s : string) : string :=
  match s with
  | EmptyString => EmptyString
  | String ch s' => if isspace ch then lstrip s' else s
  end.

Fixpoint rstrip (s : string) : string :=
  match s with
  | EmptyString => EmptyString
  | String ch s' =>
      match rstrip s' with
      | EmptyString => if isspace ch then EmptyString else String ch ""
      | kept => String ch kept
      end
  end.

Definition strip (s : string) : string := rstrip (lstrip s).

(** [str.lower()] on the code points below 256: the letters [A-Z] and the
    capital letters U+00C0 to U+00DE (U+00D7, the multiplication sign, is
    not one) move 32 up. *)
Definition lower_char (ch : ascii) : ascii :=
  let c := N_of_ascii ch in
  if ((65 <=? c) && (c <=? 90)
      || (192 <=? c) && (c <=? 222) && negb (c =? 215))%N
  then ascii_of_N (c + 32) else ch.

Fixpoint lower (s : string) : string :=
  match s with
  | EmptyString => EmptyString
  | String ch s' => String (lower_char ch) (lower s')
  end.

(** What appears on the console. The texts that contain a number or an
    exception are kept as the values they are formatted from. *)
Inductive text : Type :=
  | Literal (s : string)                 (* a string written as it is *)
  | Prompt (s : string)                  (* the prompt of [input] *)
  | HistoryLine (idx : nat) (record : HistoryRecord)
      (* f"{idx}: {record.expression} = {record.result}" *)
  | ResultText (value : pyobj)           (* str(result) *)
  | ErrorText (exc : exn).               (* f"Error: {exc}" *)

Definition banner : list text :=
  [Literal "PyCalc - simple command-line calculator";
   Literal "Type expressions to evaluate them.";
   Literal (String.append
     "Type 'history' to show past results, 'clear' to erase history, 'quit' to exit."
     (String "010" ""))].

Definition exiting : text :=
  Literal (String "010" "Exiting PyCalc.").

Definition goodbye : text := Literal "Goodbye.".

(** The [while True] loop of [run]. [lines] are the lines [read_line] will
    return, one per call; once they are used up, [input] raises [EOFError]
    or [KeyboardInterrupt]. Returns what is written and the history at the
    end. ([read_line] of [ConsoleIO] is [input], which never returns
    [None].) *)
Fixpoint repl_loop (parser : ExpressionParser) (history : HistoryManager)
    (lines : list string) : list text * HistoryManager :=
  match lines with
  | [] => ([Prompt "> "; exiting], history)
  | line :: lines' =>
      let continue (written : list text) (history : HistoryManager) :=
        let '(later, final) := repl_loop parser history lines' in
        (Prompt "> " :: written ++ later, final) in
      let stripped := strip line in
      if String.eqb stripped "" then continue [] history
      else
        let lowered := lower stripped in
        if String.eqb lowered "quit" || String.eqb lowered "exit"
        then ([Prompt "> "; goodbye], history)
        else if String.eqb lowered "history" then
          let records := get_all history in
          match records with
          | [] => continue [Literal "(no history)"] history
          | _ =>
              continue (imap (λ i record, HistoryLine (S i) record) records)
                history
          end
        else if String.eqb lowered "clear"
        then continue [Literal "History cleared."] (clear history)
        else
          match evaluate parser stripped with
          | Ok result =>
              continue [ResultText result] (add history stripped result)
          | Raise exc => continue [ErrorText exc] history
          end
  end.

Section Main.

Variable float_pow : Number → Number → func_exn + Number.

(** [run], on the lines its console will supply: everything it writes. *)
Definition run (lines : list string) : result (list text) :=
  engine ← OperationEngine_init float_pow;
  let history := HistoryManager_init in
  parser ← ExpressionParser_init float_pow (Some engine);
  Ok (banner ++ (repl_loop parser history lines).1).

End Main.

(** A line that ends the session. *)
Definition is_quit (line : string) : bool :=
  String.eqb (lower (strip line)) "quit"
  || String.eqb (lower (strip line)) "exit".



(** A line that [run] hands to [evaluate]: not blank and none of the
    commands; and a line that clears the history. *)
Definition is_expression (line : string) : bool :=
  negb (String.eqb (strip line) "")
  && negb (is_quit line)
  && negb (String.eqb (lower (strip line)) "history")
  && negb (String.eqb (lower (strip line)) "clear").

Definition is_clear (line : string) : bool :=
  String.eqb (lower (strip line)) "clear".

(** * Properties *)

(** ** Loops *)

Lemma bind_Ok {A B : Type} (c : result A) (k : A → result B) (b : B) :
  c ≫= k = Ok b ↔ ∃ a, c = Ok a ∧ k a = Ok b.
Proof.
  destruct c as [a|e]; simpl; split.
  - intros H. exists a. auto.
  - intros (a' & [= ->] & H). exact H.
  - discriminate.
  - intros (a' & [=] & _).
Qed.

Lemma bind_Raise {A B : Type} (c : result A) (k : A → result B) (e : exn) :
  c ≫= k = Raise e ↔ c = Raise e ∨ ∃ a, c = Ok a ∧ k a = Raise e.
Proof.
  destruct c as [a|e']; simpl; split.
  - intros H. right. exists a. auto.
  - intros [[=]|(a' & [= ->] & H)]. exact H.
  - intros [= ->]. left. reflexivity.
  - intros [[= ->]|(a' & [=] & _)]. reflexivity.
Qed.

Lemma for_each_app {S A : Type} (body : S → A → result S) st xs ys :
  for_each body st (xs ++ ys) =
  st' ← for_each body st xs; for_each body st' ys.
Proof.
  revert st. induction xs as [|x xs IH]; intros st; simpl; [reflexivity|].
  destruct (body st x) as [st1|e]; simpl; [apply IH | reflexivity].
Qed.

(** A loop that raises does so at one element, after a prefix that went
    through. *)
Lemma for_each_Raise {S A : Type} (body : S → A → result S) st xs e :
  for_each body st xs = Raise e ↔
  ∃ pre x post st', xs = pre ++ x :: post ∧
    for_each body st pre = Ok st' ∧ body st' x = Raise e.
Proof.
  split.
  - revert st. induction xs as [|x xs IH]; intros st; simpl; [discriminate|].
    destruct (body st x) as [st1|e'] eqn:Hb; simpl.
    + intros H. destruct (IH _ H) as (pre & y & post & st' & -> & Hpre & Hy).
      exists (x :: pre), y, post, st'. simpl. rewrite Hb. simpl. auto.
    + intros [= ->]. exists [], x, xs, st. auto.
  - intros (pre & x & post & st' & -> & Hpre & Hx).
    rewrite for_each_app, Hpre. simpl. rewrite Hx. reflexivity.
Qed.

(** ** Literals *)

(** [float] on some literals: exact values, a rounded one, a tie that goes
    to even, and a superscript digit, which [isdigit] accepts and [float]
    refuses. *)
Example float_of_literal_examples :
  float_of_literal "1" = Ok 1%float
  ∧ float_of_literal "1." = Ok 1%float
  ∧ float_of_literal ".5" = Ok 0.5%float
  ∧ float_of_literal "0.1" = Ok 0x1.999999999999ap-4%float
  ∧ float_of_literal "9007199254740993" = Ok 9007199254740992%float
  ∧ isdigit "178" = true
  ∧ float_of_literal (String "178" "") =
      Raise (ValueError (CouldNotConvert (String "178" ""))).
Proof. repeat split; vm_compute; reflexivity. Qed.

(** A second dot ends the literal and starts a new scan: ["1..2"] is the two
    numbers 1.0 and 0.2, and ["1.."] fails at index 2. *)
Example tokenise_second_dot :
  _tokenise sample_parser "1..2" =
    Ok [NumberToken 1%float; NumberToken 0x1.999999999999ap-3%float]
  ∧ _tokenise sample_parser "1.." =
      Raise (ValueError (UnexpectedCharacter 2 "."))
  ∧ _tokenise sample_parser "" = Ok [].
Proof. repeat split; vm_compute; reflexivity. Qed.

(** ** The operation engine *)

Lemma OperationEngine_init_default pow :
  OperationEngine_init pow = Ok {| _operations := default_operations pow |}.
Proof. reflexivity. Qed.

Lemma ExpressionParser_init_default pow :
  ExpressionParser_init pow None = Ok (default_parser pow).
Proof. reflexivity. Qed.

Lemma eval_expr_default pow expr :
  eval_expr pow expr = evaluate (default_parser pow) expr.
Proof. reflexivity. Qed.

Lemma has_true self symbol :
  has self symbol = true ↔ ∃ op, get self symbol = Ok op.
Proof.
  unfold has, get. rewrite bool_decide_eq_true.
  destruct (_operations self !! symbol) as [op|]; split.
  - intros _. exists op. reflexivity.
  - intros _. exists op. reflexivity.
  - intros [op [=]].
  - intros [op [=]].
Qed.

Lemma register_single self symbol f p a :
  String.length symbol = 1%nat →
  register self symbol f p a =
  Ok {| _operations :=
          <[symbol := {| symbol := symbol; func := f; precedence := p;
                         associative := a |}]> (_operations self) |}.
Proof.
  intros Hlen. unfold register. rewrite Hlen. simpl.
  destruct symbol; [discriminate Hlen | reflexivity].
Qed.

Lemma register_not_single self symbol f p a :
  String.length symbol ≠ 1%nat →
  register self symbol f p a = Raise (ValueError SymbolNotSingleCharacter).
Proof.
  intros Hlen. unfold register.
  destruct (Nat.eqb_spec (String.length symbol) 1) as [E|_]; [contradiction|].
  simpl. rewrite orb_true_r. reflexivity.
Qed.

(** C8. [register] fails (with the "single character" ValueError, the spec's
    InvalidOperatorSymbol) if and only if the symbol is empty or longer than
    one character. For a symbol of one character it succeeds whatever was
    registered before, and in the engine it leaves [has symbol] is true,
    [get symbol] returns the new entry (replacing an older one), and the
    other symbols are as they were. *)
Theorem register_symbol_check (self : OperationEngine) (symbol : string)
    (f : Number → Number → func_exn + Number) (p : Z) (a : bool) :
  (register self symbol f p a = Raise (ValueError SymbolNotSingleCharacter)
     ↔ symbol = "" ∨ (1 < String.length symbol)%nat)
  ∧ ((∃ e, register self symbol f p a = Raise e)
     ↔ symbol = "" ∨ (1 < String.length symbol)%nat)
  ∧ (String.length symbol = 1%nat →
     ∃ self',
       register self symbol f p a = Ok self'
       ∧ has self' symbol = true
       ∧ get self' symbol =
           Ok {| symbol := symbol; func := f; precedence := p;
                 associative := a |}
       ∧ ∀ other, other ≠ symbol → get self' other = get self other).
Proof.
  assert (Hcases : String.length symbol = 1%nat
                   ∨ (symbol = "" ∨ (1 < String.length symbol)%nat)
                     ∧ String.length symbol ≠ 1%nat).
  { destruct symbol as [|c [|c' s]]; simpl.
    - right. split; [left; reflexivity | lia].
    - left. reflexivity.
    - right. split; [right; lia | lia]. }
  split; [|split].
  - destruct Hcases as [H1|[Hbad Hne]].
    + rewrite (register_single _ _ _ _ _ H1). split; [discriminate|].
      intros [->|Hlt]; [discriminate H1 | lia].
    + rewrite (register_not_single _ _ _ _ _ Hne). tauto.
  - destruct Hcases as [H1|[Hbad Hne]].
    + rewrite (register_single _ _ _ _ _ H1). split.
      * intros [e [=]].
      * intros [->|Hlt]; [discriminate H1 | lia].
    + rewrite (register_not_single _ _ _ _ _ Hne). split; [tauto|].
      intros _. eexists. reflexivity.
  - intros H1. rewrite (register_single _ _ _ _ _ H1).
    eexists. split; [reflexivity|]. split; [|split].
    + apply has_true. eexists. unfold get. simpl.
      rewrite lookup_insert_eq. reflexivity.
    + unfold get. simpl. rewrite lookup_insert_eq. reflexivity.
    + intros other Hne. unfold get. simpl.
      rewrite lookup_insert_ne by congruence. reflexivity.
Qed.

(** The theorem at the registration of a sixth symbol, ["%"], over the
    default operations. *)
Lemma register_symbol_check_witness :
  String.length "%" = 1%nat
  ∧ ∃ self',
      register {| _operations := default_operations sample_pow |} "%"
        (λ a b, inr (a - b)%float) 2 true = Ok self'
      ∧ has self' "%" = true
      ∧ get self' "%" =
          Ok {| symbol := "%"; func := λ a b, inr (a - b)%float;
                precedence := 2; associative := true |}
      ∧ ∀ other, other ≠ "%" →
          get self' other =
          get {| _operations := default_operations sample_pow |} other.
Proof.
  split; [reflexivity|].
  exact (proj2 (proj2 (register_symbol_check
           {| _operations := default_operations sample_pow |} "%"
           (λ a b, inr (a - b)%float) 2 true)) eq_refl).
Defined.

Lemma apply_call self symbol op left right :
  get self symbol = Ok op →
  apply self symbol left right = call op left right.
Proof. intros H. unfold apply. rewrite H. reflexivity. Qed.

Lemma default_get_divide pow :
  get {| _operations := default_operations pow |} "/" =
  Ok {| symbol := "/"; func := _safe_divide; precedence := 2;
        associative := true |}.
Proof. reflexivity. Qed.

(** C6. The default division fails, with [ZeroDivisionError], if and only if
    its right operand compares equal to zero, and otherwise returns the
    quotient; [apply] on the default engine gives exactly what the division
    gives, its failure included (the spec's ArithmeticFailure); and
    [evaluate("1 / 0")] fails that way. *)
Theorem safe_divide_by_zero (pow : Number → Number → func_exn + Number)
    (a b : Number) :
  (_safe_divide a b = inl ZeroDivisionError ↔ PrimFloat.eqb b 0%float = true)
  ∧ ((∃ e, _safe_divide a b = inl e) ↔ PrimFloat.eqb b 0%float = true)
  ∧ (PrimFloat.eqb b 0%float = false → _safe_divide a b = inr (a / b)%float)
  ∧ (∀ self, OperationEngine_init pow = Ok self →
       (PrimFloat.eqb b 0%float = true →
        apply self "/" a b = Raise (ArithmeticFailure ZeroDivisionError))
       ∧ (PrimFloat.eqb b 0%float = false →
          apply self "/" a b = Ok (a / b)%float))
  ∧ eval_expr pow "1 / 0" = Raise (ArithmeticFailure ZeroDivisionError)
  ∧ _safe_divide 1%float (-0)%float = inl ZeroDivisionError.
Proof.
  unfold _safe_divide.
  split; [|split; [|split; [|split; [|split; [|reflexivity]]]]].
  - destruct (PrimFloat.eqb b 0%float); split; congruence.
  - destruct (PrimFloat.eqb b 0%float); split; try congruence.
    + intros _. eexists. reflexivity.
    + intros [e [=]].
  - intros ->. reflexivity.
  - intros self. rewrite OperationEngine_init_default. intros [= <-].
    rewrite (apply_call _ _ _ _ _ (default_get_divide pow)).
    unfold call, func, _safe_divide.
    split; intros ->; reflexivity.
  - vm_compute. reflexivity.
Qed.

(** The theorem at [8 / 4]. *)
Lemma safe_divide_by_zero_witness :
  PrimFloat.eqb 4%float 0%float = false
  ∧ _safe_divide 8%float 4%float = inr 2%float.
Proof.
  split; [reflexivity|].
  exact (proj1 (proj2 (proj2 (safe_divide_by_zero sample_pow 8%float 4%float)))
           eq_refl).
Defined.

(** ** The tokeniser *)

Lemma get_None_length (s : string) (i : nat) :
  String.get i s = None ↔ (String.length s ≤ i)%nat.
Proof.
  revert i. induction s as [|c s IH]; intros i; simpl.
  - split; [lia | reflexivity].
  - destruct i as [|i]; simpl.
    + split; [discriminate | lia].
    + rewrite IH. lia.
Qed.

Lemma get_Some_length (s : string) (i : nat) (ch : ascii) :
  String.get i s = Some ch → (i < String.length s)%nat.
Proof.
  intros H. destruct (Nat.lt_ge_cases i (String.length s)) as [Hlt|Hge];
    [exact Hlt|].
  apply get_None_length in Hge. congruence.
Qed.

Section TokeniseFacts.

Variable self : ExpressionParser.
Variable expression : string.

Lemma scan_number_ge rest i has_dot :
  (i ≤ scan_number rest i has_dot)%nat.
Proof.
  revert i has_dot. induction rest as [|c rest IH]; intros i has_dot; simpl.
  - lia.
  - destruct (isdigit c).
    + specialize (IH (i + 1)%nat has_dot). lia.
    + destruct (Ascii.eqb c "." && negb has_dot).
      * specialize (IH (i + 1)%nat true). lia.
      * lia.
Qed.

(** Every iteration of the outer loop moves the cursor forward. *)
Lemma tokenise_body_progress i ch tokens i' tokens' :
  tokenise_body self expression i ch tokens = Ok (i', tokens') →
  (i < i')%nat.
Proof.
  unfold tokenise_body.
  destruct (isspace ch); [intros [= <- _]; lia|].
  destruct (starts_number expression i ch).
  - pose proof (scan_number_ge
      (slice expression (i + 1) (String.length expression)) (i + 1)
      (Ascii.eqb ch ".")) as Hge.
    destruct (float_of_literal _); simpl; [|discriminate].
    intros [= <- _]. lia.
  - destruct (Ascii.eqb ch "("); [intros [= <- _]; lia|].
    destruct (Ascii.eqb ch ")"); [intros [= <- _]; lia|].
    destruct (has _ _); [intros [= <- _]; lia | discriminate].
Qed.

(** With at least [n - i] iterations allowed the loop does not depend on the
    allowance, and it ends. *)
Lemma tokenise_loop_fuel_irrelevant fuel1 fuel2 i tokens :
  (String.length expression - i ≤ fuel1)%nat →
  (String.length expression - i ≤ fuel2)%nat →
  tokenise_loop self expression fuel1 i tokens =
  tokenise_loop self expression fuel2 i tokens.
Proof.
  revert fuel2 i tokens.
  induction fuel1 as [|fuel1 IH]; intros fuel2 i tokens H1 H2;
    destruct fuel2 as [|fuel2]; simpl;
    destruct (String.get i expression) as [ch|] eqn:Hget; try reflexivity;
    pose proof (get_Some_length _ _ _ Hget) as Hlt; try lia.
  destruct (tokenise_body self expression i ch tokens) as [[i' tokens']|e]
    eqn:Hbody; [|reflexivity].
  apply tokenise_body_progress in Hbody. apply IH; lia.
Qed.

Lemma tokenise_loop_fuel fuel i tokens :
  (String.length expression - i ≤ fuel)%nat →
  ∃ r, tokenise_loop self expression fuel i tokens = Some r.
Proof.
  revert i tokens. induction fuel as [|fuel IH]; intros i tokens Hfuel; simpl;
    destruct (String.get i expression) as [ch|] eqn:Hget; eauto;
    pose proof (get_Some_length _ _ _ Hget) as Hlt; try lia.
  destruct (tokenise_body self expression i ch tokens) as [[i' tokens']|e]
    eqn:Hbody; eauto.
  apply tokenise_body_progress in Hbody. apply IH. lia.
Qed.

(** [_tokenise] is the loop run to its end. *)
Lemma tokenise_total :
  tokenise_loop self expression (String.length expression) 0 [] =
  Some (_tokenise self expression).
Proof.
  unfold _tokenise.
  destruct (tokenise_loop_fuel (String.length expression) 0 []) as [r ->];
    [lia | reflexivity].
Qed.

(** From a state the loop reaches, the rest of the run decides the result. *)
Lemma reaches_run i tokens :
  reaches self expression i tokens →
  tokenise_loop self expression (String.length expression - i) i tokens =
  Some (_tokenise self expression).
Proof.
  induction 1 as [|i ch tokens i' tokens' Hreach IH Hget Hbody].
  - rewrite Nat.sub_0_r. apply tokenise_total.
  - rewrite <- IH.
    pose proof (get_Some_length _ _ _ Hget) as Hlt.
    pose proof (tokenise_body_progress _ _ _ _ _ Hbody) as Hprog.
    destruct (String.length expression - i)%nat as [|fuel] eqn:Hfuel; [lia|].
    simpl. rewrite Hget, Hbody.
    apply tokenise_loop_fuel_irrelevant; lia.
Qed.

Lemma reaches_raise i ch tokens e :
  reaches self expression i tokens →
  String.get i expression = Some ch →
  tokenise_body self expression i ch tokens = Raise e →
  _tokenise self expression = Raise e.
Proof.
  intros Hreach Hget Hbody.
  pose proof (reaches_run _ _ Hreach) as Hrun.
  pose proof (get_Some_length _ _ _ Hget) as Hlt.
  destruct (String.length expression - i)%nat as [|fuel] eqn:Hfuel; [lia|].
  simpl in Hrun. rewrite Hget, Hbody in Hrun. congruence.
Qed.

End TokeniseFacts.

(** C7. Whenever the scan stands at a character that is not whitespace, does
    not start a number literal, is not a parenthesis and is not a registered
    operator symbol, [_tokenise] (and with it [evaluate]) fails with the
    "Unexpected character" ValueError carrying the 0-based index of that
    character and the character; [evaluate("1 + a")] reports position 4 and
    the character [a]. *)
Theorem tokenise_unexpected_character
    (pow : Number → Number → func_exn + Number) :
  (∀ (self : ExpressionParser) (expression : string) (i : nat)
     (tokens : list Token) (ch : ascii),
     reaches self expression i tokens →
     String.get i expression = Some ch →
     isspace ch = false →
     starts_number expression i ch = false →
     ch ≠ "("%char → ch ≠ ")"%char →
     has (engine self) (String ch "") = false →
     _tokenise self expression = Raise (ValueError (UnexpectedCharacter i ch))
     ∧ evaluate self expression =
         Raise (ValueError (UnexpectedCharacter i ch)))
  ∧ eval_expr pow "1 + a" = Raise (ValueError (UnexpectedCharacter 4 "a")).
Proof.
  split; [|vm_compute; reflexivity].
  intros self expression i tokens ch Hreach Hget Hsp Hnum Hl Hr Hop.
  assert (Htok : _tokenise self expression =
                 Raise (ValueError (UnexpectedCharacter i ch))).
  { apply (reaches_raise self expression i ch tokens); [assumption..|].
    unfold tokenise_body. rewrite Hsp, Hnum, Hop.
    apply Ascii.eqb_neq in Hl, Hr. rewrite Hl, Hr. reflexivity. }
  split; [exact Htok|]. unfold evaluate. rewrite Htok. reflexivity.
Qed.

(** The theorem at ["1 + a"]: the scan reaches index 4 after the tokens of
    [1] and [+]. *)
Lemma tokenise_unexpected_character_witness :
  reaches sample_parser "1 + a" 4 [NumberToken 1%float; OperatorToken "+"]
  ∧ _tokenise sample_parser "1 + a" =
      Raise (ValueError (UnexpectedCharacter 4 "a"))
  ∧ evaluate sample_parser "1 + a" =
      Raise (ValueError (UnexpectedCharacter 4 "a")).
Proof.
  assert (Hreach : reaches sample_parser "1 + a" 4
                     [NumberToken 1%float; OperatorToken "+"]).
  { set (one := [NumberToken 1%float]).
    apply (reaches_next sample_parser "1 + a" 3 " "
             (one ++ [OperatorToken "+"]) 4 _); [|reflexivity..].
    apply (reaches_next sample_parser "1 + a" 2 "+" one 3 _);
      [|reflexivity..].
    apply (reaches_next sample_parser "1 + a" 1 " " one 2 _);
      [|reflexivity..].
    apply (reaches_next sample_parser "1 + a" 0 "1" [] 1 _);
      [|reflexivity..].
    apply reaches_start. }
  split; [exact Hreach|].
  apply (proj1 (tokenise_unexpected_character sample_pow) sample_parser
           "1 + a" 4%nat [NumberToken 1%float; OperatorToken "+"] "a"%char
           Hreach);
    first [reflexivity | discriminate].
Defined.

(** ** The converter *)

Lemma for_each_invariant {S A : Type} (P : S → Prop)
    (body : S → A → result S) :
  (∀ st x st', P st → body st x = Ok st' → P st') →
  ∀ xs st st', P st → for_each body st xs = Ok st' → P st'.
Proof.
  intros Hstep. induction xs as [|x xs IH]; intros st st' HP; simpl.
  - intros [= <-]. exact HP.
  - destruct (body st x) as [st1|e] eqn:Hb; simpl; [|discriminate].
    apply IH. exact (Hstep _ _ _ HP Hb).
Qed.

Lemma stack_entry_not_paren (t : Token) :
  stack_entry t = true → t ≠ LeftParenToken → postfix_token t = true.
Proof. destruct t; simpl; congruence. Qed.

Lemma left_paren_dec (t : Token) :
  {t = LeftParenToken} + {t ≠ LeftParenToken}.
Proof. destruct t; (left; reflexivity) || (right; discriminate). Qed.

Section ConverterFacts.

Variable self : ExpressionParser.

(** What the precedence loop does: it moves a run [popped] of operators from
    the top of the stack to the end of the output, each of precedence at
    least that of the current operator, and stops at the first entry that is
    not such an operator. *)
Lemma pop_by_precedence_spec cur ops output ops' output' :
  pop_by_precedence self cur ops output = Ok (ops', output') →
  ∃ popped,
    ops = popped ++ ops' ∧ output' = output ++ popped
    ∧ Forall (λ t, ∃ top top_op cur_op,
                t = OperatorToken top
                ∧ get (engine self) top = Ok top_op
                ∧ get (engine self) cur = Ok cur_op
                ∧ precedence cur_op ≤ precedence top_op) popped
    ∧ match ops' with
      | OperatorToken top :: _ =>
          ∃ top_op cur_op,
            get (engine self) top = Ok top_op
            ∧ get (engine self) cur = Ok cur_op
            ∧ precedence top_op < precedence cur_op
      | _ => True
      end.
Proof.
  revert output. induction ops as [|t ops IH]; intros output H; simpl in H.
  - injection H as <- <-. exists []. rewrite !app_nil_r.
    repeat split; constructor.
  - destruct t as [v|top| |];
      try (injection H as <- <-; exists []; rewrite !app_nil_r;
           repeat split; constructor).
    destruct (get (engine self) top) as [top_op|e] eqn:Htop in H;
      simpl in H; [|discriminate].
    destruct (get (engine self) cur) as [cur_op|e] eqn:Hcur in H;
      simpl in H; [|discriminate].
    destruct (Z.geb_spec (precedence top_op) (precedence cur_op)) as [Hge|Hlt].
    + destruct (IH _ H) as (popped & -> & -> & Hall & Hstop).
      exists (OperatorToken top :: popped). rewrite <- app_assoc. simpl.
      repeat split; [|exact Hstop].
      constructor; [|exact Hall]. exists top, top_op, cur_op. auto.
    + injection H as <- <-. exists []. rewrite !app_nil_r.
      repeat split; [constructor|]. eauto.
Qed.

Lemma pop_by_precedence_Raise cur ops output e :
  pop_by_precedence self cur ops output = Raise e → ∃ key, e = KeyError key.
Proof.
  revert output. induction ops as [|t ops IH]; intros output; simpl;
    [discriminate|].
  destruct t as [v|top| |]; try discriminate.
  unfold get.
  destruct (_operations (engine self) !! top); simpl; [|intros [= <-]; eauto].
  destruct (_operations (engine self) !! cur); simpl; [|intros [= <-]; eauto].
  destruct (_ >=? _); [apply IH | discriminate].
Qed.

(** What the loop of a right parenthesis does: it moves the entries above
    the topmost left parenthesis to the output, or all of them when there is
    none. *)
Lemma pop_to_paren_spec ops output :
  ∃ popped,
    ops = popped ++ (pop_to_paren ops output).1
    ∧ (pop_to_paren ops output).2 = output ++ popped
    ∧ (LeftParenToken ∉ popped)
    ∧ ((pop_to_paren ops output).1 = [] ∧ (LeftParenToken ∉ ops)
       ∨ ∃ rest, (pop_to_paren ops output).1 = LeftParenToken :: rest).
Proof.
  revert output. induction ops as [|t ops IH]; intros output.
  - exists []. simpl. rewrite !app_nil_r.
    repeat split; try apply not_elem_of_nil. left. split; [reflexivity|].
    apply not_elem_of_nil.
  - destruct (left_paren_dec t) as [->|Hne].
    + exists []. simpl. rewrite !app_nil_r.
      repeat split; [apply not_elem_of_nil|]. right. eauto.
    + assert (Hpop : pop_to_paren (t :: ops) output =
                     pop_to_paren ops (output ++ [t])).
      { destruct t; simpl; congruence. }
      rewrite Hpop.
      destruct (IH (output ++ [t])) as (popped & Hops & Hout & Hno & Hend).
      exists (t :: popped). rewrite Hout, <- app_assoc. simpl.
      rewrite <- Hops. repeat split.
      * apply not_elem_of_cons. split; [congruence | exact Hno].
      * destruct Hend as [[Hnil Hnone]|Hparen]; [left | right; exact Hparen].
        split; [exact Hnil|].
        apply not_elem_of_cons. split; [congruence | exact Hnone].
Qed.

Lemma drain_cases ops output :
  (LeftParenToken ∉ ops) ∧ drain ops output = Ok (output ++ ops)
  ∨ LeftParenToken ∈ ops
    ∧ drain ops output = Raise (ValueError MismatchedParentheses).
Proof.
  revert output. induction ops as [|t ops IH]; intros output.
  - left. simpl. rewrite !app_nil_r.
    split; [apply not_elem_of_nil | reflexivity].
  - destruct (left_paren_dec t) as [->|Hne].
    + right. split; [apply elem_of_cons; left; reflexivity | reflexivity].
    + assert (Hdrain : drain (t :: ops) output = drain ops (output ++ [t])).
      { destruct t; simpl; congruence. }
      rewrite Hdrain.
      destruct (IH (output ++ [t])) as [[Hno ->]|[Hin ->]].
      * left. rewrite <- app_assoc. split; [|reflexivity].
        apply not_elem_of_cons. split; [congruence | exact Hno].
      * right. split; [|reflexivity]. apply elem_of_cons. right. exact Hin.
Qed.

(** The body of the conversion loop raises "Mismatched parentheses" exactly
    at a right parenthesis with no left parenthesis on the stack. *)
Lemma rpn_body_mismatched st token :
  rpn_body self st token = Raise (ValueError MismatchedParentheses) ↔
  token = RightParenToken ∧ (LeftParenToken ∉ ops st).
Proof.
  destruct token as [v|sym| |]; simpl.
  - split; [discriminate | intros [[=] _]].
  - split; [|intros [[=] _]].
    destruct (pop_by_precedence self sym (ops st) _) as [[o out]|e] eqn:Hpop;
      simpl; [discriminate|].
    intros [= ->]. apply pop_by_precedence_Raise in Hpop as [key [=]].
  - split; [discriminate | intros [[=] _]].
  - destruct (pop_to_paren_spec (ops st) (output st))
      as (popped & Hops & Hout & Hno & Hend).
    destruct (pop_to_paren (ops st) (output st)) as [o out]. simpl in *.
    destruct Hend as [[-> Hnone]|[rest ->]].
    + tauto.
    + split; [discriminate|]. intros [_ Hnone]. exfalso. apply Hnone.
      rewrite Hops. apply elem_of_app. right. apply elem_of_cons. auto.
Qed.

(** The two stacks keep their kinds of tokens. *)
Lemma rpn_body_kinds st token st' :
  Forall (λ t, postfix_token t = true) (output st)
  ∧ Forall (λ t, stack_entry t = true) (ops st) →
  rpn_body self st token = Ok st' →
  Forall (λ t, postfix_token t = true) (output st')
  ∧ Forall (λ t, stack_entry t = true) (ops st').
Proof.
  intros [Hout Hops]. destruct token as [v|sym| |]; simpl.
  - intros [= <-]. simpl. split; [|exact Hops].
    apply Forall_app. split; [exact Hout | repeat constructor].
  - destruct (pop_by_precedence self sym (ops st) _) as [[o out]|e] eqn:Hpop;
      simpl; [|discriminate].
    intros [= <-]. simpl.
    apply pop_by_precedence_spec in Hpop
      as (popped & Hsplit & -> & Hall & _).
    rewrite Hsplit in Hops. apply Forall_app in Hops as [_ Hrest].
    split; [|constructor; [reflexivity | exact Hrest]].
    apply Forall_app. split.
    + destruct (_ && _); [|exact Hout].
      apply Forall_app. split; [exact Hout | repeat constructor].
    + eapply Forall_impl; [exact Hall|].
      intros t (top & _ & _ & -> & _). reflexivity.
  - intros [= <-]. simpl. split; [exact Hout|].
    constructor; [reflexivity | exact Hops].
  - destruct (pop_to_paren_spec (ops st) (output st))
      as (popped & Hsplit & Hpopped & Hno & _).
    destruct (pop_to_paren (ops st) (output st)) as [o out]. simpl in *.
    destruct o as [|[v|top| |] rest]; try discriminate.
    intros [= <-]. simpl. subst out.
    rewrite Hsplit in Hops. apply Forall_app in Hops as [Hpop Hrest].
    split; [|apply Forall_cons in Hrest as [_ Hrest]; exact Hrest].
    apply Forall_app. split; [exact Hout|].
    apply Forall_forall. intros t Ht.
    apply stack_entry_not_paren.
    + exact (proj1 (Forall_forall _ _) Hpop t Ht).
    + intros ->. exact (Hno Ht).
Qed.

Lemma for_each_rpn_kinds tokens st :
  for_each (rpn_body self) rpn_start tokens = Ok st →
  Forall (λ t, postfix_token t = true) (output st)
  ∧ Forall (λ t, stack_entry t = true) (ops st).
Proof.
  apply (for_each_invariant
           (λ st, Forall (λ t, postfix_token t = true) (output st)
                  ∧ Forall (λ t, stack_entry t = true) (ops st))
           (rpn_body self) rpn_body_kinds).
  split; constructor.
Qed.

End ConverterFacts.

(** C5. [_to_rpn] fails with the "Mismatched parentheses" ValueError in
    exactly two situations: a right parenthesis is processed while the
    stack holds no left parenthesis (the loop then empties the stack), or
    all the tokens have been consumed and a left parenthesis is still on
    the stack. So [evaluate("(1 + 2")] and [evaluate("1 + 2)")] both fail
    with it. *)
Theorem to_rpn_mismatched_parentheses
    (pow : Number → Number → func_exn + Number) (self : ExpressionParser)
    (tokens : list Token) :
  (_to_rpn self tokens = Raise (ValueError MismatchedParentheses) ↔
     (∃ pre post st,
        tokens = pre ++ RightParenToken :: post
        ∧ for_each (rpn_body self) rpn_start pre = Ok st
        ∧ (LeftParenToken ∉ ops st)
        ∧ (pop_to_paren (ops st) (output st)).1 = [])
     ∨ (∃ st,
          for_each (rpn_body self) rpn_start tokens = Ok st
          ∧ LeftParenToken ∈ ops st))
  ∧ eval_expr pow "(1 + 2" = Raise (ValueError MismatchedParentheses)
  ∧ eval_expr pow "1 + 2)" = Raise (ValueError MismatchedParentheses).
Proof.
  split; [|split; vm_compute; reflexivity].
  unfold _to_rpn. rewrite bind_Raise. split.
  - intros [Hloop|(st & Hloop & Hdrain)].
    + left. apply for_each_Raise in Hloop
        as (pre & x & post & st & -> & Hpre & Hx).
      apply rpn_body_mismatched in Hx as [-> Hnone].
      exists pre, post, st. repeat split; try assumption.
      destruct (pop_to_paren_spec (ops st) (output st))
        as (popped & Hops & _ & _ & [[Hnil _]|[rest Hrest]]); [exact Hnil|].
      exfalso. apply Hnone. rewrite Hops, Hrest.
      apply elem_of_app. right. apply elem_of_cons. auto.
    + right. exists st. split; [exact Hloop|].
      destruct (drain_cases (ops st) (output st)) as [[_ H]|[Hin _]];
        [congruence | exact Hin].
  - intros [(pre & post & st & -> & Hpre & Hnone & _)|(st & Hloop & Hin)].
    + left. apply for_each_Raise. exists pre, RightParenToken, post, st.
      repeat split; [exact Hpre|]. apply rpn_body_mismatched. auto.
    + right. exists st. split; [exact Hloop|].
      destruct (drain_cases (ops st) (output st)) as [[Hno _]|[_ H]];
        [contradiction | exact H].
Qed.

(** The first situation of the theorem at the tokens of ["1 + 2)"]: the
    right parenthesis finds only [+] on the stack. *)
Lemma to_rpn_mismatched_parentheses_witness :
  _to_rpn sample_parser
    [NumberToken 1%float; OperatorToken "+"; NumberToken 2%float;
     RightParenToken] = Raise (ValueError MismatchedParentheses).
Proof.
  apply (proj1 (to_rpn_mismatched_parentheses sample_pow sample_parser _)).
  left.
  exists [NumberToken 1%float; OperatorToken "+"; NumberToken 2%float], [],
    {| output := [NumberToken 1%float; NumberToken 2%float];
       ops := [OperatorToken "+"]; prev := Some (NumberToken 2%float) |}.
  repeat split. simpl. intros Hin.
  apply elem_of_cons in Hin as [[=]|Hin]. exact (not_elem_of_nil _ Hin).
Defined.

(** C9. When [_to_rpn] succeeds, the postfix sequence it returns holds only
    number and operator tokens, and [_eval_rpn] fed with it never raises
    "Invalid token in RPN expression". *)
Theorem to_rpn_postfix_tokens (self : ExpressionParser)
    (tokens rpn : list Token) :
  _to_rpn self tokens = Ok rpn →
  Forall (λ t, postfix_token t = true) rpn
  ∧ (LeftParenToken ∉ rpn) ∧ (RightParenToken ∉ rpn)
  ∧ ∀ evaluator : ExpressionParser,
      _eval_rpn evaluator rpn ≠ Raise (ValueError InvalidToken).
Proof.
  unfold _to_rpn. rewrite bind_Ok. intros (st & Hloop & Hdrain).
  apply for_each_rpn_kinds in Hloop as [Hout Hops].
  assert (Hall : Forall (λ t, postfix_token t = true) rpn).
  { destruct (drain_cases (ops st) (output st)) as [[Hno H]|[_ H]];
      [|congruence].
    rewrite H in Hdrain. injection Hdrain as <-.
    apply Forall_app. split; [exact Hout|].
    apply Forall_forall. intros t Ht. apply stack_entry_not_paren.
    - exact (proj1 (Forall_forall _ _) Hops t Ht).
    - intros ->. exact (Hno Ht). }
  split; [exact Hall|].
  split; [|split].
  - intros Hin. apply (proj1 (Forall_forall _ _) Hall) in Hin. discriminate.
  - intros Hin. apply (proj1 (Forall_forall _ _) Hall) in Hin. discriminate.
  - intros evaluator. unfold _eval_rpn. rewrite bind_Raise.
    intros [Hloop|(stack & _ & Hlen)].
    + apply for_each_Raise in Hloop as (pre & x & post & stack & -> & _ & Hx).
      apply Forall_app in Hall as [_ Hall].
      apply Forall_cons in Hall as [Hpost _].
      destruct x as [v|sym| |]; try discriminate. simpl in Hx.
      destruct stack as [|b [|a stack]]; try discriminate.
      unfold apply, get, call in Hx.
      destruct (_operations (engine evaluator) !! sym) as [op|]; simpl in Hx;
        [|discriminate].
      destruct (func op a b); discriminate.
    + destruct (negb _); discriminate.
Qed.

(** The theorem at the tokens of ["(1 + 2) * 3"]. *)
Lemma to_rpn_postfix_tokens_witness :
  _to_rpn sample_parser
    [LeftParenToken; NumberToken 1%float; OperatorToken "+";
     NumberToken 2%float; RightParenToken; OperatorToken "*";
     NumberToken 3%float] =
  Ok [NumberToken 1%float; NumberToken 2%float; OperatorToken "+";
      NumberToken 3%float; OperatorToken "*"]
  ∧ Forall (λ t, postfix_token t = true)
      [NumberToken 1%float; NumberToken 2%float; OperatorToken "+";
       NumberToken 3%float; OperatorToken "*"]
  ∧ (LeftParenToken ∉
       [NumberToken 1%float; NumberToken 2%float; OperatorToken "+";
        NumberToken 3%float; OperatorToken "*"])
  ∧ (RightParenToken ∉
       [NumberToken 1%float; NumberToken 2%float; OperatorToken "+";
        NumberToken 3%float; OperatorToken "*"])
  ∧ ∀ evaluator : ExpressionParser,
      _eval_rpn evaluator
        [NumberToken 1%float; NumberToken 2%float; OperatorToken "+";
         NumberToken 3%float; OperatorToken "*"]
      ≠ Raise (ValueError InvalidToken).
Proof.
  split; [reflexivity|].
  exact (to_rpn_postfix_tokens sample_parser
           [LeftParenToken; NumberToken 1%float; OperatorToken "+";
            NumberToken 2%float; RightParenToken; OperatorToken "*";
            NumberToken 3%float]
           [NumberToken 1%float; NumberToken 2%float; OperatorToken "+";
            NumberToken 3%float; OperatorToken "*"] eq_refl).
Defined.

(** C2. In [_to_rpn] an arriving operator pops the stacked operators to the
    output as long as the top of the stack is an operator whose precedence
    is greater than or equal to its own, and stops at the first entry that
    is not; so two occurrences of one operator, [^] included, group left to
    right: ["2^3^2"] becomes the postfix [2 3 ^ 2 ^] and the value the
    evaluator is left with is (2^3)^2, which is 64 when [2 ** 3] is 8 and
    [8 ** 2] is 64, and not 512. *)
Theorem pop_rule_groups_left_to_right
    (pow : Number → Number → func_exn + Number) :
  (∀ (self : ExpressionParser) (cur : string) (ops output ops' output'
        : list Token),
     pop_by_precedence self cur ops output = Ok (ops', output') →
     ∃ popped,
       ops = popped ++ ops' ∧ output' = output ++ popped
       ∧ Forall (λ t, ∃ top top_op cur_op,
                   t = OperatorToken top
                   ∧ get (engine self) top = Ok top_op
                   ∧ get (engine self) cur = Ok cur_op
                   ∧ precedence cur_op ≤ precedence top_op) popped
       ∧ match ops' with
         | OperatorToken top :: _ =>
             ∃ top_op cur_op,
               get (engine self) top = Ok top_op
               ∧ get (engine self) cur = Ok cur_op
               ∧ precedence top_op < precedence cur_op
         | _ => True
         end)
  ∧ (∀ (self : ExpressionParser) (sym : string) (op : Operation)
       (a b c : Number),
       get (engine self) sym = Ok op →
       _to_rpn self [NumberToken a; OperatorToken sym; NumberToken b;
                     OperatorToken sym; NumberToken c] =
       Ok [NumberToken a; NumberToken b; OperatorToken sym; NumberToken c;
           OperatorToken sym])
  ∧ (tokens ← _tokenise (default_parser pow) "2^3^2";
     _to_rpn (default_parser pow) tokens) =
    Ok [NumberToken 2%float; NumberToken 3%float; OperatorToken "^";
        NumberToken 2%float; OperatorToken "^"]
  ∧ (∀ x v : Number,
       pow 2%float 3%float = inr x → pow x 2%float = inr v →
       for_each (eval_body (default_parser pow)) []
         [NumberToken 2%float; NumberToken 3%float; OperatorToken "^";
          NumberToken 2%float; OperatorToken "^"] = Ok [v]
       ∧ eval_expr pow "2^3^2" = Ok (PyList [v]))
  ∧ (pow 2%float 3%float = inr 8%float →
     pow 8%float 2%float = inr 64%float →
     eval_expr pow "2^3^2" = Ok (PyList [64%float])
     ∧ py_eq (PyList [64%float]) (PyList [512%float]) = false).
Proof.
  assert (Hvalue : ∀ x v : Number,
            pow 2%float 3%float = inr x → pow x 2%float = inr v →
            for_each (eval_body (default_parser pow)) []
              [NumberToken 2%float; NumberToken 3%float; OperatorToken "^";
               NumberToken 2%float; OperatorToken "^"] = Ok [v]
            ∧ eval_expr pow "2^3^2" = Ok (PyList [v])).
  { intros x v H1 H2.
    assert (Hloop : for_each (eval_body (default_parser pow)) []
              [NumberToken 2%float; NumberToken 3%float; OperatorToken "^";
               NumberToken 2%float; OperatorToken "^"] = Ok [v]).
    { cbn [for_each eval_body mbind result_bind].
      change (apply (engine (default_parser pow)) "^" 2%float 3%float)
        with (call {| symbol := "^"; func := pow; precedence := 3;
                      associative := true |} 2%float 3%float).
      unfold call at 1. cbn [func]. rewrite H1.
      cbn [for_each eval_body mbind result_bind].
      change (apply (engine (default_parser pow)) "^" x 2%float)
        with (call {| symbol := "^"; func := pow; precedence := 3;
                      associative := true |} x 2%float).
      unfold call. cbn [func]. rewrite H2. reflexivity. }
    split; [exact Hloop|].
    rewrite eval_expr_default. unfold evaluate.
    change (_tokenise (default_parser pow) "2^3^2")
      with (Ok [NumberToken 2%float; OperatorToken "^"; NumberToken 3%float;
                OperatorToken "^"; NumberToken 2%float]).
    cbn [mbind result_bind].
    change (_to_rpn (default_parser pow) _)
      with (Ok [NumberToken 2%float; NumberToken 3%float; OperatorToken "^";
                NumberToken 2%float; OperatorToken "^"]).
    cbn [mbind result_bind]. unfold _eval_rpn. rewrite Hloop. reflexivity. }
  split; [|split; [|split; [|split]]].
  - intros self. apply pop_by_precedence_spec.
  - intros self sym op a b c Hget. unfold _to_rpn.
    cbn [for_each rpn_body mbind result_bind prev ops output rpn_start
         unary_position pop_by_precedence].
    rewrite !andb_false_r.
    cbn [for_each rpn_body mbind result_bind prev ops output rpn_start
         unary_position pop_by_precedence].
    rewrite Hget. cbn [mbind result_bind].
    destruct (Z.geb_spec (precedence op) (precedence op)) as [_|Hlt]; [|lia].
    reflexivity.
  - vm_compute. reflexivity.
  - exact Hvalue.
  - intros H1 H2. split; [|reflexivity]. apply (Hvalue _ _ H1 H2).
Qed.

(** The theorem with [sample_pow] for [**]. *)
Lemma pop_rule_groups_left_to_right_witness :
  sample_pow 2%float 3%float = inr 8%float
  ∧ sample_pow 8%float 2%float = inr 64%float
  ∧ eval_expr sample_pow "2^3^2" = Ok (PyList [64%float])
  ∧ py_eq (PyList [64%float]) (PyList [512%float]) = false.
Proof.
  split; [reflexivity|]. split; [reflexivity|].
  exact (proj2 (proj2 (proj2 (proj2
           (pop_rule_groups_left_to_right sample_pow)))) eq_refl eq_refl).
Defined.

(** C3. Reading a [-] while the previous token is none, an operator or a
    left parenthesis is reading it, as an ordinary binary operator, once the
    implicit [NumberToken 0.0] has been appended to the output: the state
    after it is the one an ordinary [-] gives from the state in which that
    zero has just been output. Otherwise nothing is inserted.
    So ["-1 + 2"] becomes [0 1 - 2 +] and ["-(-1)"] becomes [0 0 1 - -],
    and the evaluator is left with the value 1 in both cases; [evaluate]
    then returns the stack [[1.0]], a list, which Python does not find equal
    to [1]. *)
Theorem unary_minus_implicit_zero
    (pow : Number → Number → func_exn + Number) :
  (∀ (self : ExpressionParser) (st : rpn_state),
     rpn_body self st (OperatorToken "-") =
     rpn_body self
       (if unary_position (prev st)
        then {| output := output st ++ [NumberToken 0%float];
                ops := ops st; prev := Some (NumberToken 0%float) |}
        else st)
       (OperatorToken "-"))
  ∧ (∀ (self : ExpressionParser) (st : rpn_state),
       match rpn_body self st (OperatorToken "-") with
       | Ok st' =>
           ∃ popped,
             output st' =
             (output st
              ++ (if unary_position (prev st) then [NumberToken 0%float]
                  else []))
             ++ popped
       | Raise _ => True
       end)
  ∧ (tokens ← _tokenise (default_parser pow) "-1 + 2";
     _to_rpn (default_parser pow) tokens) =
    Ok [NumberToken 0%float; NumberToken 1%float; OperatorToken "-";
        NumberToken 2%float; OperatorToken "+"]
  ∧ (tokens ← _tokenise (default_parser pow) "-(-1)";
     _to_rpn (default_parser pow) tokens) =
    Ok [NumberToken 0%float; NumberToken 0%float; NumberToken 1%float;
        OperatorToken "-"; OperatorToken "-"]
  ∧ eval_expr pow "-1 + 2" = Ok (PyList [1%float])
  ∧ eval_expr pow "-(-1)" = Ok (PyList [1%float])
  ∧ py_eq (PyList [1%float]) (PyFloat 1%float) = false.
Proof.
  split; [|split; [|repeat split; vm_compute; reflexivity]].
  - intros self st. destruct (unary_position (prev st)) eqn:Hprev;
      [|reflexivity].
    simpl. rewrite Hprev. reflexivity.
  - intros self st. simpl.
    destruct (pop_by_precedence self "-" (ops st) _) as [[o out]|e] eqn:Hpop;
      simpl; [|exact I].
    apply pop_by_precedence_spec in Hpop as (popped & _ & -> & _).
    exists popped. destruct (unary_position (prev st)); simpl;
      [reflexivity | rewrite app_nil_r; reflexivity].
Qed.

(** ** The evaluator *)

Lemma eval_body_Raise self stack token e :
  eval_body self stack token = Raise e →
  e = ValueError InsufficientValues ∨ e = ValueError InvalidToken
  ∨ (∃ key, e = KeyError key) ∨ (∃ f, e = ArithmeticFailure f).
Proof.
  destruct token as [v|sym| |]; simpl; try discriminate;
    try (intros [= <-]; auto).
  destruct stack as [|b [|a stack]]; try (intros [= <-]; auto).
  unfold apply, get, call.
  destruct (_operations (engine self) !! sym) as [op|]; simpl;
    [|intros [= <-]; eauto].
  destruct (func op a b); simpl; [intros [= <-]; eauto | discriminate].
Qed.

(** C4. [_eval_rpn] fails with the "Invalid expression" ValueError exactly
    when all the postfix tokens have been consumed and the value stack then
    holds a number of values other than one. The empty sequence is such a
    case, so evaluating the empty string fails that way, and so is a
    sequence with a number too many. *)
Theorem eval_rpn_invalid_expression
    (pow : Number → Number → func_exn + Number) (self : ExpressionParser)
    (tokens : list Token) :
  (_eval_rpn self tokens = Raise (ValueError InvalidExpression) ↔
     ∃ stack,
       for_each (eval_body self) [] tokens = Ok stack
       ∧ length stack ≠ 1%nat)
  ∧ _eval_rpn self [] = Raise (ValueError InvalidExpression)
  ∧ evaluate self "" = Raise (ValueError InvalidExpression)
  ∧ (∀ a b : Number,
       _eval_rpn self [NumberToken a; NumberToken b] =
       Raise (ValueError InvalidExpression))
  ∧ eval_expr pow "" = Raise (ValueError InvalidExpression)
  ∧ eval_expr pow "1 2" = Raise (ValueError InvalidExpression).
Proof.
  split; [|repeat split; try reflexivity; vm_compute; reflexivity].
  unfold _eval_rpn. rewrite bind_Raise. split.
  - intros [Hloop|(stack & Hloop & Hlen)].
    + apply for_each_Raise in Hloop as (pre & x & post & stack & _ & _ & Hx).
      apply eval_body_Raise in Hx
        as [[=]|[[=]|[[key [=]]|[f [=]]]]].
    + exists stack. split; [exact Hloop|].
      destruct (Nat.eqb_spec (length stack) 1) as [E|Hne];
        [discriminate | exact Hne].
  - intros (stack & Hloop & Hlen). right. exists stack.
    split; [exact Hloop|].
    destruct (Nat.eqb_spec (length stack) 1) as [E|Hne];
      [contradiction | reflexivity].
Qed.

(** The theorem at the postfix sequence [1 2]: both numbers are left. *)
Lemma eval_rpn_invalid_expression_witness :
  for_each (eval_body sample_parser) []
    [NumberToken 1%float; NumberToken 2%float] = Ok [2%float; 1%float]
  ∧ _eval_rpn sample_parser [NumberToken 1%float; NumberToken 2%float] =
      Raise (ValueError InvalidExpression).
Proof.
  split; [reflexivity|].
  apply (proj1 (eval_rpn_invalid_expression sample_pow sample_parser _)).
  exists [2%float; 1%float]. split; [reflexivity | discriminate].
Defined.

Lemma eval_rpn_returns_list self tokens v :
  _eval_rpn self tokens = Ok v → ∃ x, v = PyList [x].
Proof.
  unfold _eval_rpn. rewrite bind_Ok. intros (stack & _ & H).
  destruct stack as [|x [|y stack]]; try discriminate.
  injection H as <-. exists x. reflexivity.
Qed.

(** C1. What [evaluate] hands back when it succeeds is never a number: it
    is the value stack itself, a list of one float. For ["1 + 2 * 3"] it
    returns [[7.0]], and Python's [[7.0] == 7] is false; for ["2 ^ 3 * 2"],
    when [2 ** 3] is 8, it returns [[16.0]]. *)
Theorem evaluate_returns_the_stack
    (pow : Number → Number → func_exn + Number) :
  eval_expr pow "1 + 2 * 3" = Ok (PyList [7%float])
  ∧ is_Number (PyList [7%float]) = false
  ∧ py_eq (PyList [7%float]) (PyFloat 7%float) = false
  ∧ (pow 2%float 3%float = inr 8%float →
     eval_expr pow "2 ^ 3 * 2" = Ok (PyList [16%float]))
  ∧ (∀ (self : ExpressionParser) (expression : string),
       match evaluate self expression with
       | Ok v => is_Number v = false ∧ ∃ x, v = PyList [x]
       | Raise _ => True
       end).
Proof.
  split; [vm_compute; reflexivity|].
  split; [reflexivity|]. split; [reflexivity|]. split.
  - intros H. rewrite eval_expr_default. unfold evaluate.
    change (_tokenise (default_parser pow) "2 ^ 3 * 2")
      with (Ok [NumberToken 2%float; OperatorToken "^"; NumberToken 3%float;
                OperatorToken "*"; NumberToken 2%float]).
    cbn [mbind result_bind].
    change (_to_rpn (default_parser pow) _)
      with (Ok [NumberToken 2%float; NumberToken 3%float; OperatorToken "^";
                NumberToken 2%float; OperatorToken "*"]).
    cbn [mbind result_bind]. unfold _eval_rpn.
    cbn [for_each eval_body mbind result_bind].
    change (apply (engine (default_parser pow)) "^" 2%float 3%float)
      with (call {| symbol := "^"; func := pow; precedence := 3;
                    associative := true |} 2%float 3%float).
    unfold call. cbn [func]. rewrite H. vm_compute. reflexivity.
  - intros self expression.
    destruct (evaluate self expression) as [v|e] eqn:Heval; [|exact I].
    unfold evaluate in Heval.
    apply bind_Ok in Heval as (tokens & _ & Heval).
    apply bind_Ok in Heval as (rpn & _ & Heval).
    apply eval_rpn_returns_list in Heval as [x ->].
    split; [reflexivity | eauto].
Qed.

(** C10. ["--1"] is accepted. Its tokens are [-], [-], [1]; after the first
    [-] the output is [0] and [-] is on the stack; the second [-] appends
    another zero and then pops the first [-] (equal precedence) before it is
    pushed; the postfix sequence is [0 0 - 1 -], and the one value left on
    the evaluator's stack is -1.0, not 1.0. *)
Theorem double_unary_minus (pow : Number → Number → func_exn + Number) :
  _tokenise (default_parser pow) "--1" =
    Ok [OperatorToken "-"; OperatorToken "-"; NumberToken 1%float]
  ∧ for_each (rpn_body (default_parser pow)) rpn_start [OperatorToken "-"] =
      Ok {| output := [NumberToken 0%float]; ops := [OperatorToken "-"];
            prev := Some (OperatorToken "-") |}
  ∧ for_each (rpn_body (default_parser pow)) rpn_start
      [OperatorToken "-"; OperatorToken "-"] =
      Ok {| output := [NumberToken 0%float; NumberToken 0%float;
                       OperatorToken "-"];
            ops := [OperatorToken "-"];
            prev := Some (OperatorToken "-") |}
  ∧ _to_rpn (default_parser pow)
      [OperatorToken "-"; OperatorToken "-"; NumberToken 1%float] =
      Ok [NumberToken 0%float; NumberToken 0%float; OperatorToken "-";
          NumberToken 1%float; OperatorToken "-"]
  ∧ for_each (eval_body (default_parser pow)) []
      [NumberToken 0%float; NumberToken 0%float; OperatorToken "-";
       NumberToken 1%float; OperatorToken "-"] = Ok [(-1)%float]
  ∧ eval_expr pow "--1" = Ok (PyList [(-1)%float])
  ∧ PrimFloat.eqb (-1)%float 1%float = false.
Proof. repeat split; vm_compute; reflexivity. Qed.

(** * Further properties of the code *)

(** ** The registry *)

(** X1. [has], [get] and [apply] agree on what is registered: [has] is true
    exactly when [get] returns an operation; when it is false, [get] and
    [apply] (whatever the operands) raise [KeyError] with the symbol asked
    for, and [get] never raises anything else. *)
Theorem unregistered_symbol_lookup (self : OperationEngine)
    (symbol : string) :
  (has self symbol = true ↔ ∃ op, get self symbol = Ok op)
  ∧ (has self symbol = false ↔ get self symbol = Raise (KeyError symbol))
  ∧ (has self symbol = false ↔
     ∀ left right, apply self symbol left right = Raise (KeyError symbol))
  ∧ (∀ e, get self symbol = Raise e → e = KeyError symbol).
Proof.
  split; [apply has_true|].
  unfold has, apply, get.
  destruct (_operations self !! symbol) as [op|] eqn:Hlook; simpl.
  - repeat split; try discriminate.
    intros H. specialize (H 0%float 0%float). unfold call in H.
    destruct (func op 0%float 0%float); discriminate.
  - repeat split; try reflexivity. intros e [= <-]. reflexivity.
Qed.

(** X2. A fresh engine knows exactly the five symbols [+ - * / ^], with
    precedences 1, 1, 2, 2 and 3, each stored under its own symbol and
    marked associative. *)
Theorem default_engine_symbols (pow : Number → Number → func_exn + Number)
    (sym : string) :
  (has (engine (default_parser pow)) sym = true ↔
     sym = "+" ∨ sym = "-" ∨ sym = "*" ∨ sym = "/" ∨ sym = "^")
  ∧ (∀ op, get (engine (default_parser pow)) sym = Ok op →
       symbol op = sym ∧ associative op = true
       ∧ precedence op =
           (if String.eqb sym "+" || String.eqb sym "-" then 1
            else if String.eqb sym "*" || String.eqb sym "/" then 2
            else 3)).
Proof.
  rewrite has_true. unfold get, default_parser, engine, _operations,
    default_operations.
  destruct (decide (sym = "^")) as [->|H5];
    [rewrite lookup_insert_eq; split;
     [split; [tauto | eauto] | intros op [= <-]; auto]|].
  rewrite lookup_insert_ne by congruence.
  destruct (decide (sym = "/")) as [->|H4];
    [rewrite lookup_insert_eq; split;
     [split; [tauto | eauto] | intros op [= <-]; auto]|].
  rewrite lookup_insert_ne by congruence.
  destruct (decide (sym = "*")) as [->|H3];
    [rewrite lookup_insert_eq; split;
     [split; [tauto | eauto] | intros op [= <-]; auto]|].
  rewrite lookup_insert_ne by congruence.
  destruct (decide (sym = "-")) as [->|H2];
    [rewrite lookup_insert_eq; split;
     [split; [tauto | eauto] | intros op [= <-]; auto]|].
  rewrite lookup_insert_ne by congruence.
  destruct (decide (sym = "+")) as [->|H1];
    [rewrite lookup_insert_eq; split;
     [split; [tauto | eauto] | intros op [= <-]; auto]|].
  rewrite lookup_insert_ne by congruence.
  rewrite lookup_empty. split; [|intros op [=]].
  split; [intros [op [=]] | intros [?|[?|[?|[?|?]]]]; congruence].
Qed.



(** X4. Two registrations of different single-character symbols give the
    same engine in either order, and of two registrations of one symbol
    only the later one counts. *)
Theorem register_order (self : OperationEngine) (s1 s2 : string)
    (f1 f2 : Number → Number → func_exn + Number) (p1 p2 : Z)
    (a1 a2 : bool) :
  String.length s1 = 1%nat →
  (String.length s2 = 1%nat → s1 ≠ s2 →
   ∃ self',
     (e ← register self s1 f1 p1 a1; register e s2 f2 p2 a2) = Ok self'
     ∧ (e ← register self s2 f2 p2 a2; register e s1 f1 p1 a1) = Ok self')
  ∧ (e ← register self s1 f1 p1 a1; register e s1 f2 p2 a2) =
    register self s1 f2 p2 a2.
Proof.
  intros H1. split.
  - intros H2 Hne.
    rewrite (register_single _ _ _ _ _ H1), (register_single _ _ _ _ _ H2).
    simpl.
    rewrite (register_single _ _ _ _ _ H1), (register_single _ _ _ _ _ H2).
    simpl. eexists. split; [reflexivity|].
    rewrite insert_insert_ne by congruence. reflexivity.
  - rewrite !(register_single _ _ _ _ _ H1). simpl.
    rewrite (register_single _ _ _ _ _ H1). simpl.
    rewrite insert_insert_eq. reflexivity.
Qed.

(** The theorem at [*] and [/] over the empty engine. *)
Lemma register_order_witness :
  String.length "*" = 1%nat
  ∧ (String.length "/" = 1%nat → "*" ≠ "/" →
     ∃ self',
       (e ← register {| _operations := ∅ |} "*"
              (λ a b, inr (a * b)%float) 2 true;
        register e "/" _safe_divide 2 true) = Ok self'
       ∧ (e ← register {| _operations := ∅ |} "/" _safe_divide 2 true;
          register e "*" (λ a b, inr (a * b)%float) 2 true) = Ok self')
  ∧ (e ← register {| _operations := ∅ |} "*"
            (λ a b, inr (a * b)%float) 2 true;
     register e "*" _safe_divide 2 true) =
    register {| _operations := ∅ |} "*" _safe_divide 2 true.
Proof.
  split; [reflexivity|].
  exact (register_order {| _operations := ∅ |} "*" "/"
           (λ a b, inr (a * b)%float) _safe_divide 2 2 true true eq_refl).
Defined.

(** ** The evaluator and the converter on short sequences *)

Lemma eval_loop_count self tokens stack stack' :
  for_each (eval_body self) stack tokens = Ok stack' →
  (length stack' + length (List.filter is_operator tokens) =
   length stack + length (List.filter is_number tokens))%nat
  ∧ Forall (λ t, postfix_token t = true) tokens.
Proof.
  revert stack. induction tokens as [|t tokens IH]; intros stack; simpl.
  - intros [= <-]. split; [lia | constructor].
  - destruct t as [v|sym| |]; simpl; try discriminate.
    + intros H. apply IH in H as [Hlen Hall]. simpl in Hlen.
      split; [lia | constructor; [reflexivity | exact Hall]].
    + destruct stack as [|b [|a stack]]; try discriminate.
      destruct (apply (engine self) sym a b) as [res|e]; simpl;
        [|discriminate].
      intros H. apply IH in H as [Hlen Hall]. simpl in Hlen.
      split; [lia | constructor; [reflexivity | exact Hall]].
Qed.

(** X5. A postfix sequence that [_eval_rpn] evaluates successfully holds
    only number and operator tokens, and exactly one number more than it
    holds operators. *)
Theorem eval_rpn_success_counts (self : ExpressionParser)
    (tokens : list Token) (v : pyobj) :
  _eval_rpn self tokens = Ok v →
  length (List.filter is_number tokens) =
    S (length (List.filter is_operator tokens))
  ∧ Forall (λ t, postfix_token t = true) tokens.
Proof.
  unfold _eval_rpn. rewrite bind_Ok. intros (stack & Hloop & Hret).
  apply eval_loop_count in Hloop as [Hlen Hall].
  destruct (Nat.eqb_spec (length stack) 1) as [H1|H1]; [|discriminate].
  simpl in Hlen. split; [lia | exact Hall].
Qed.

(** The theorem at the postfix sequence [1 2 +]. *)
Lemma eval_rpn_success_counts_witness :
  _eval_rpn sample_parser
    [NumberToken 1%float; NumberToken 2%float; OperatorToken "+"] =
    Ok (PyList [3%float])
  ∧ length (List.filter is_number
              [NumberToken 1%float; NumberToken 2%float; OperatorToken "+"]) =
      S (length (List.filter is_operator
                   [NumberToken 1%float; NumberToken 2%float;
                    OperatorToken "+"]))
  ∧ Forall (λ t, postfix_token t = true)
      [NumberToken 1%float; NumberToken 2%float; OperatorToken "+"].
Proof.
  split; [reflexivity|].
  exact (eval_rpn_success_counts sample_parser
           [NumberToken 1%float; NumberToken 2%float; OperatorToken "+"]
           (PyList [3%float]) eq_refl).
Defined.

(** X6. For a registered operator, the tokens [a sym b] convert to the
    postfix [a b sym], and evaluating it calls the operator's function with
    [a] as left and [b] as right operand: the result is the one-element
    stack holding its value, or the exception the function raised. *)
Theorem binary_operation_operands (self : ExpressionParser) (sym : string)
    (op : Operation) (a b : Number) :
  get (engine self) sym = Ok op →
  _to_rpn self [NumberToken a; OperatorToken sym; NumberToken b] =
    Ok [NumberToken a; NumberToken b; OperatorToken sym]
  ∧ _eval_rpn self [NumberToken a; NumberToken b; OperatorToken sym] =
      match func op a b with
      | inr v => Ok (PyList [v])
      | inl e => Raise (ArithmeticFailure e)
      end.
Proof.
  intros Hget. split.
  - unfold _to_rpn.
    cbn [for_each rpn_body mbind result_bind prev ops output rpn_start
         unary_position pop_by_precedence].
    rewrite andb_false_r.
    cbn [for_each rpn_body mbind result_bind prev ops output rpn_start
         unary_position pop_by_precedence drain app].
    reflexivity.
  - unfold _eval_rpn. cbn [for_each eval_body mbind result_bind].
    rewrite (apply_call _ _ _ _ _ Hget). unfold call.
    destruct (func op a b); reflexivity.
Qed.

(** The theorem at [5 - 3] on the default operations. *)
Lemma binary_operation_operands_witness :
  _to_rpn sample_parser
    [NumberToken 5%float; OperatorToken "-"; NumberToken 3%float] =
    Ok [NumberToken 5%float; NumberToken 3%float; OperatorToken "-"]
  ∧ _eval_rpn sample_parser
      [NumberToken 5%float; NumberToken 3%float; OperatorToken "-"] =
      Ok (PyList [2%float]).
Proof.
  exact (binary_operation_operands sample_parser "-"
           {| symbol := "-"; func := λ a b, inr (a - b)%float;
              precedence := 1; associative := true |}
           5%float 3%float eq_refl).
Defined.

(** X7. A [-] that follows an operator of the same or a higher precedence
    gets its implicit zero, and then pops that operator: [a sym - b] becomes
    the postfix [a 0 sym b -], which computes [(a sym 0) - b]. On the
    default operations ["2 * -3"] so evaluates to [2 * 0 - 3 = -3], and
    ["5 - -3"] to [5 - 0 - 3 = 2]. *)
Theorem unary_minus_after_operator
    (pow : Number → Number → func_exn + Number) :
  (∀ (self : ExpressionParser) (sym : string) (op minus : Operation)
     (a b : Number),
     get (engine self) sym = Ok op →
     get (engine self) "-" = Ok minus →
     precedence minus ≤ precedence op →
     _to_rpn self [NumberToken a; OperatorToken sym; OperatorToken "-";
                   NumberToken b] =
     Ok [NumberToken a; NumberToken 0%float; OperatorToken sym;
         NumberToken b; OperatorToken "-"])
  ∧ (∀ a b : Number,
       (rpn ← _to_rpn (default_parser pow)
                [NumberToken a; OperatorToken "*"; OperatorToken "-";
                 NumberToken b];
        _eval_rpn (default_parser pow) rpn) =
       Ok (PyList [(a * 0 - b)%float]))
  ∧ eval_expr pow "2 * -3" = Ok (PyList [(-3)%float])
  ∧ eval_expr pow "5 - -3" = Ok (PyList [2%float]).
Proof.
  split; [|split; [|split; vm_compute; reflexivity]].
  - intros self sym op minus a b Hop Hminus Hprec. unfold _to_rpn.
    cbn [for_each rpn_body mbind result_bind prev ops output rpn_start
         unary_position pop_by_precedence].
    rewrite andb_false_r.
    cbn [for_each rpn_body mbind result_bind prev ops output rpn_start
         unary_position pop_by_precedence String.eqb Ascii.eqb Bool.eqb
         andb app].
    rewrite Hop, Hminus. cbn [mbind result_bind].
    destruct (Z.geb_spec (precedence op) (precedence minus)) as [_|Hlt];
      [|lia].
    reflexivity.
  - intros a b. reflexivity.
Qed.

(** The theorem at [2 * -3] on the default operations. *)
Lemma unary_minus_after_operator_witness :
  get (engine sample_parser) "*" =
    Ok {| symbol := "*"; func := λ a b, inr (a * b)%float; precedence := 2;
          associative := true |}
  ∧ _to_rpn sample_parser
      [NumberToken 2%float; OperatorToken "*"; OperatorToken "-";
       NumberToken 3%float] =
    Ok [NumberToken 2%float; NumberToken 0%float; OperatorToken "*";
        NumberToken 3%float; OperatorToken "-"].
Proof.
  split; [reflexivity|].
  refine (proj1 (unary_minus_after_operator sample_pow) sample_parser "*"
            {| symbol := "*"; func := λ a b, inr (a * b)%float;
               precedence := 2; associative := true |}
            {| symbol := "-"; func := λ a b, inr (a - b)%float;
               precedence := 1; associative := true |}
            2%float 3%float eq_refl eq_refl _).
  simpl. lia.
Defined.

(** ** More on the tokeniser *)

Section TokeniseResults.

Variable self : ExpressionParser.
Variable expression : string.

Lemma tokenise_loop_reached fuel i tokens r :
  reaches self expression i tokens →
  tokenise_loop self expression fuel i tokens = Some r →
  match r with
  | Ok tokens' =>
      ∃ j, reaches self expression j tokens'
           ∧ String.get j expression = None
  | Raise e =>
      ∃ j ch tokens',
        reaches self expression j tokens'
        ∧ String.get j expression = Some ch
        ∧ tokenise_body self expression j ch tokens' = Raise e
  end.
Proof.
  revert i tokens. induction fuel as [|fuel IH]; intros i tokens Hreach; simpl;
    destruct (String.get i expression) as [ch|] eqn:Hget;
    try discriminate; try (intros [= <-]; eauto).
  destruct (tokenise_body self expression i ch tokens) as [[i' tokens']|e]
    eqn:Hbody.
  - apply IH. exact (reaches_next _ _ _ _ _ _ _ Hreach Hget Hbody).
  - intros [= <-]. eauto 6.
Qed.

(** The result of [_tokenise] is the one of the state in which its loop
    stopped. *)
Lemma tokenise_reached :
  match _tokenise self expression with
  | Ok tokens =>
      ∃ j, reaches self expression j tokens
           ∧ String.get j expression = None
  | Raise e =>
      ∃ j ch tokens,
        reaches self expression j tokens
        ∧ String.get j expression = Some ch
        ∧ tokenise_body self expression j ch tokens = Raise e
  end.
Proof.
  apply (tokenise_loop_reached (String.length expression) 0 []).
  - apply reaches_start.
  - apply tokenise_total.
Qed.

Lemma tokenise_body_Raise i ch tokens e :
  tokenise_body self expression i ch tokens = Raise e →
  (e = ValueError (UnexpectedCharacter i ch)
   ∧ isspace ch = false ∧ starts_number expression i ch = false
   ∧ ch ≠ "("%char ∧ ch ≠ ")"%char
   ∧ has (engine self) (String ch "") = false)
  ∨ (∃ literal, e = ValueError (CouldNotConvert literal)
                ∧ starts_number expression i ch = true).
Proof.
  unfold tokenise_body.
  destruct (isspace ch); [discriminate|].
  destruct (starts_number expression i ch).
  - unfold float_of_literal.
    destruct (read_decimal _ _ _ _ _) as [[m k]|]; simpl; [discriminate|].
    intros [= <-]. right. eauto.
  - destruct (Ascii.eqb_spec ch "("); [discriminate|].
    destruct (Ascii.eqb_spec ch ")"); [discriminate|].
    destruct (has _ _); [discriminate|].
    intros [= <-]. left. auto 10.
Qed.

Lemma substring_length (a m : nat) (s : string) :
  (String.length (substring a m s) ≤ m)%nat.
Proof.
  revert a m. induction s as [|c s IH]; intros a m.
  - destruct a, m; simpl; lia.
  - destruct a as [|a].
    + destruct m as [|m]; simpl; [lia|]. specialize (IH 0%nat m). lia.
    + simpl. apply IH.
Qed.

Lemma scan_number_le rest i has_dot :
  (scan_number rest i has_dot ≤ i + String.length rest)%nat.
Proof.
  revert i has_dot. induction rest as [|c rest IH]; intros i has_dot; simpl.
  - lia.
  - destruct (isdigit c).
    + specialize (IH (i + 1)%nat has_dot). lia.
    + destruct (Ascii.eqb c "." && negb has_dot).
      * specialize (IH (i + 1)%nat true). lia.
      * lia.
Qed.

(** In every state the loop reaches, the cursor is within the expression,
    each token so far took at least one character, and every operator token
    carries a registered symbol of one character. *)
Lemma reaches_invariant i tokens :
  reaches self expression i tokens →
  (length tokens ≤ i ≤ String.length expression)%nat
  ∧ Forall (λ t, registered_token self t = true) tokens
  ∧ Forall (λ t, ∀ sym, t = OperatorToken sym →
                 String.length sym = 1%nat) tokens.
Proof.
  induction 1 as [|i ch tokens i' tokens' Hreach IH Hget Hbody].
  - simpl. repeat split; try lia; constructor.
  - destruct IH as ((Hlen & Hle) & Hreg & Hone).
    pose proof (get_Some_length _ _ _ Hget) as Hlt.
    unfold tokenise_body in Hbody.
    destruct (isspace ch); [injection Hbody as <- <-; repeat split;
                            try lia; assumption|].
    destruct (starts_number expression i ch).
    { pose proof (scan_number_ge
        (slice expression (i + 1) (String.length expression)) (i + 1)
        (Ascii.eqb ch ".")) as Hge.
      pose proof (scan_number_le
        (slice expression (i + 1) (String.length expression)) (i + 1)
        (Ascii.eqb ch ".")) as Hup.
      pose proof (substring_length (i + 1)
        (String.length expression - (i + 1)) expression) as Hsub.
      unfold slice in Hup at 2.
      destruct (float_of_literal _) as [value|e]; simpl in Hbody;
        [|discriminate].
      injection Hbody as <- <-. rewrite length_app. simpl.
      repeat split; try lia.
      - apply Forall_app. split; [exact Hreg | repeat constructor].
      - apply Forall_app. split; [exact Hone|].
        repeat constructor. intros sym [=]. }
    destruct (Ascii.eqb ch "(").
    { injection Hbody as <- <-. rewrite length_app. simpl.
      repeat split; try lia.
      - apply Forall_app. split; [exact Hreg | repeat constructor].
      - apply Forall_app. split; [exact Hone|].
        repeat constructor. intros sym [=]. }
    destruct (Ascii.eqb ch ")").
    { injection Hbody as <- <-. rewrite length_app. simpl.
      repeat split; try lia.
      - apply Forall_app. split; [exact Hreg | repeat constructor].
      - apply Forall_app. split; [exact Hone|].
        repeat constructor. intros sym [=]. }
    destruct (has (engine self) (String ch "")) eqn:Hhas; [|discriminate].
    injection Hbody as <- <-. rewrite length_app. simpl.
    repeat split; try lia.
    + apply Forall_app. split; [exact Hreg|].
      repeat constructor. exact Hhas.
    + apply Forall_app. split; [exact Hone|].
      repeat constructor. intros sym [= <-]. reflexivity.
Qed.

End TokeniseResults.

(** X8. When [_tokenise] succeeds, it has produced no more tokens than the
    expression has characters, and every operator token it produced carries
    a symbol of one character that the engine has registered. *)
Theorem tokenise_tokens_registered (self : ExpressionParser)
    (expression : string) (tokens : list Token) :
  _tokenise self expression = Ok tokens →
  (length tokens ≤ String.length expression)%nat
  ∧ ∀ sym, OperatorToken sym ∈ tokens →
      has (engine self) sym = true ∧ String.length sym = 1%nat.
Proof.
  intros Htok. pose proof (tokenise_reached self expression) as Hreach.
  rewrite Htok in Hreach. destruct Hreach as (j & Hreach & _).
  apply reaches_invariant in Hreach as ((Hlen & Hle) & Hreg & Hone).
  split; [lia|]. intros sym Hin. split.
  - exact (proj1 (Forall_forall _ _) Hreg _ Hin).
  - exact (proj1 (Forall_forall _ _) Hone _ Hin sym eq_refl).
Qed.

(** The theorem at ["(1+2)"] on the default operations. *)
Lemma tokenise_tokens_registered_witness :
  _tokenise sample_parser "(1+2)" =
    Ok [LeftParenToken; NumberToken 1%float; OperatorToken "+";
        NumberToken 2%float; RightParenToken]
  ∧ (length [LeftParenToken; NumberToken 1%float; OperatorToken "+";
             NumberToken 2%float; RightParenToken]
     ≤ String.length "(1+2)")%nat
  ∧ ∀ sym,
      OperatorToken sym ∈
        [LeftParenToken; NumberToken 1%float; OperatorToken "+";
         NumberToken 2%float; RightParenToken] →
      has (engine sample_parser) sym = true ∧ String.length sym = 1%nat.
Proof.
  split; [reflexivity|].
  exact (tokenise_tokens_registered sample_parser "(1+2)" _ eq_refl).
Defined.

(** X9. [_tokenise] fails in two ways only. It raises "Unexpected character"
    with position [i] and character [ch] exactly when its scan reaches index
    [i], [ch] is the character there, and [ch] is neither whitespace, nor
    the start of a number, nor a parenthesis, nor a registered symbol; any
    other failure is the one of [float] on a literal it cut out. *)
Theorem tokenise_failures (self : ExpressionParser) (expression : string) :
  (∀ i ch,
     _tokenise self expression = Raise (ValueError (UnexpectedCharacter i ch))
     ↔ ∃ tokens,
         reaches self expression i tokens
         ∧ String.get i expression = Some ch
         ∧ isspace ch = false ∧ starts_number expression i ch = false
         ∧ ch ≠ "("%char ∧ ch ≠ ")"%char
         ∧ has (engine self) (String ch "") = false)
  ∧ (∀ e, _tokenise self expression = Raise e →
       (∃ i ch, e = ValueError (UnexpectedCharacter i ch)
                ∧ String.get i expression = Some ch)
       ∨ ∃ literal, e = ValueError (CouldNotConvert literal)).
Proof.
  split.
  - intros i ch. split.
    + intros Htok. pose proof (tokenise_reached self expression) as Hreach.
      rewrite Htok in Hreach.
      destruct Hreach as (j & c & tokens & Hreach & Hget & Hbody).
      apply tokenise_body_Raise in Hbody
        as [([= <- <-] & H)|(literal & [=] & _)].
      exists tokens. auto.
    + intros (tokens & Hreach & Hget & Hsp & Hnum & Hl & Hr & Hop).
      apply (reaches_raise self expression i ch tokens); [assumption..|].
      unfold tokenise_body. rewrite Hsp, Hnum, Hop.
      apply Ascii.eqb_neq in Hl, Hr. rewrite Hl, Hr. reflexivity.
  - intros e Htok. pose proof (tokenise_reached self expression) as Hreach.
    rewrite Htok in Hreach.
    destruct Hreach as (j & c & tokens & Hreach & Hget & Hbody).
    apply tokenise_body_Raise in Hbody as [(-> & _)|(literal & -> & _)];
      eauto.
Qed.

(** ** Leading whitespace *)

Lemma scan_number_shift rest i has_dot :
  scan_number rest (S i) has_dot = S (scan_number rest i has_dot).
Proof.
  revert i has_dot. induction rest as [|c rest IH]; intros i has_dot; simpl;
    [reflexivity|].
  destruct (isdigit c); [apply IH|].
  destruct (Ascii.eqb c "." && negb has_dot); [apply IH | reflexivity].
Qed.

Section LeadingCharacter.

Variable self : ExpressionParser.
Variable c : ascii.
Variable s : string.

(** An iteration on [c + s] at [i + 1] is the iteration on [s] at [i], one
    character further. *)
Lemma tokenise_body_shift i ch tokens :
  tokenise_body self (String c s) (S i) ch tokens =
  match tokenise_body self s i ch tokens with
  | Ok (i', tokens') => Ok (S i', tokens')
  | Raise e => Raise (shift_position 1 e)
  end.
Proof.
  unfold tokenise_body.
  change (starts_number (String c s) (S i) ch) with (starts_number s i ch).
  destruct (isspace ch); [reflexivity|].
  destruct (starts_number s i ch).
  - change (slice (String c s) (S i + 1) (String.length (String c s)))
      with (slice s (i + 1) (String.length s)).
    change (S i + 1)%nat with (S (i + 1)). rewrite scan_number_shift.
    set (j := scan_number (slice s (i + 1) (String.length s)) (i + 1)
                (Ascii.eqb ch ".")).
    change (slice (String c s) (S i) (S j)) with (slice s i j).
    unfold float_of_literal.
    destruct (read_decimal (slice s i j) false false 0 0) as [[m k]|];
      reflexivity.
  - destruct (Ascii.eqb ch "("); [reflexivity|].
    destruct (Ascii.eqb ch ")"); [reflexivity|].
    destruct (has (engine self) (String ch "")); reflexivity.
Qed.

Lemma tokenise_loop_shift fuel i tokens :
  tokenise_loop self (String c s) fuel (S i) tokens =
  shift_result 1 <$> tokenise_loop self s fuel i tokens.
Proof.
  revert i tokens. induction fuel as [|fuel IH]; intros i tokens; simpl;
    destruct (String.get i s) as [ch|]; try reflexivity.
  rewrite tokenise_body_shift.
  destruct (tokenise_body self s i ch tokens) as [[i' tokens']|e];
    [apply IH | reflexivity].
Qed.

Lemma tokenise_leading_space :
  isspace c = true →
  _tokenise self (String c s) = shift_result 1 (_tokenise self s).
Proof.
  intros Hsp. unfold _tokenise at 1. simpl. unfold tokenise_body at 1.
  rewrite Hsp. change (0 + 1)%nat with 1%nat.
  rewrite tokenise_loop_shift, tokenise_total. reflexivity.
Qed.

End LeadingCharacter.

Lemma shift_result_add {A : Type} (k : nat) (r : result A) :
  shift_result 1 (shift_result k r) = shift_result (S k) r.
Proof. destruct r as [a|[[]| |]]; reflexivity. Qed.

Lemma tokenise_leading_whitespace self ws s :
  all_whitespace ws = true →
  _tokenise self (String.append ws s) =
  shift_result (String.length ws) (_tokenise self s).
Proof.
  induction ws as [|c ws IH]; simpl.
  - intros _. change (String.append "" s) with s.
    destruct (_tokenise self s) as [a|[[]| |]]; reflexivity.
  - intros [Hc Hws]%andb_true_iff.
    change (String.append (String c ws) s)
      with (String c (String.append ws s)).
    rewrite (tokenise_leading_space _ _ _ Hc), (IH Hws).
    apply shift_result_add.
Qed.

(** ** What the three stages can raise *)

Section PipelineFacts.

Variable self : ExpressionParser.

Lemma pop_by_precedence_registered cur ops output :
  Forall (λ t, registered_token self t = true) ops →
  has (engine self) cur = true →
  ∃ ops' output', pop_by_precedence self cur ops output = Ok (ops', output').
Proof.
  intros Hops Hcur. apply has_true in Hcur as [cur_op Hcur].
  revert output. induction Hops as [|t ops Ht Hops IH]; intros output; simpl;
    [eauto|].
  destruct t as [v|top| |]; eauto.
  simpl in Ht. apply has_true in Ht as [top_op Htop].
  rewrite Htop, Hcur. simpl. destruct (_ >=? _); eauto.
Qed.

(** On registered tokens the body of the conversion loop can only raise
    "Mismatched parentheses", and it keeps the stack and the output
    registered. *)
Lemma rpn_body_registered st token :
  Forall (λ t, registered_token self t = true) (output st) →
  Forall (λ t, registered_token self t = true) (ops st) →
  registered_token self token = true →
  match rpn_body self st token with
  | Ok st' =>
      Forall (λ t, registered_token self t = true) (output st')
      ∧ Forall (λ t, registered_token self t = true) (ops st')
  | Raise e => e = ValueError MismatchedParentheses
  end.
Proof.
  intros Hout Hops Htok. destruct token as [v|sym| |]; simpl.
  - split; [|exact Hops]. apply Forall_app. split; [exact Hout|].
    repeat constructor.
  - set (out := if String.eqb sym "-" && unary_position (prev st)
                then output st ++ [NumberToken 0%float] else output st).
    assert (Hout' : Forall (λ t, registered_token self t = true) out).
    { unfold out. destruct (_ && _); [|exact Hout].
      apply Forall_app. split; [exact Hout | repeat constructor]. }
    destruct (pop_by_precedence_registered sym (ops st) out Hops Htok)
      as (ops' & output' & Hpop).
    rewrite Hpop. simpl.
    apply pop_by_precedence_spec in Hpop as (popped & Hsplit & -> & _).
    rewrite Hsplit in Hops. apply Forall_app in Hops as [Hpopped Hrest].
    split; [apply Forall_app; auto | constructor; auto].
  - split; [exact Hout | constructor; [reflexivity | exact Hops]].
  - destruct (pop_to_paren_spec (ops st) (output st))
      as (popped & Hsplit & Hpopped & _ & _).
    destruct (pop_to_paren (ops st) (output st)) as [o out]. simpl in *.
    destruct o as [|[v|top| |] rest]; try reflexivity.
    subst out. rewrite Hsplit in Hops.
    apply Forall_app in Hops as [Hpop Hrest].
    apply Forall_cons in Hrest as [_ Hrest].
    split; [apply Forall_app; auto | exact Hrest].
Qed.

Lemma for_each_rpn_registered tokens st :
  Forall (λ t, registered_token self t = true) (output st) →
  Forall (λ t, registered_token self t = true) (ops st) →
  Forall (λ t, registered_token self t = true) tokens →
  match for_each (rpn_body self) st tokens with
  | Ok st' =>
      Forall (λ t, registered_token self t = true) (output st')
      ∧ Forall (λ t, registered_token self t = true) (ops st')
  | Raise e => e = ValueError MismatchedParentheses
  end.
Proof.
  intros Hout Hops Htoks. revert st Hout Hops.
  induction Htoks as [|t tokens Ht Htoks IH]; intros st Hout Hops; simpl;
    [auto|].
  pose proof (rpn_body_registered st t Hout Hops Ht) as Hbody.
  destruct (rpn_body self st t) as [st1|e]; simpl; [|exact Hbody].
  destruct Hbody as [Hout1 Hops1]. apply IH; assumption.
Qed.

(** On registered tokens [_to_rpn] can only raise "Mismatched parentheses",
    and what it returns is registered and free of parentheses. *)
Lemma to_rpn_registered tokens :
  Forall (λ t, registered_token self t = true) tokens →
  match _to_rpn self tokens with
  | Ok rpn =>
      Forall (λ t, registered_token self t = true) rpn
      ∧ Forall (λ t, postfix_token t = true) rpn
  | Raise e => e = ValueError MismatchedParentheses
  end.
Proof.
  intros Htoks. unfold _to_rpn.
  pose proof (for_each_rpn_registered tokens rpn_start
                (List.Forall_nil _) (List.Forall_nil _) Htoks) as Hloop.
  destruct (for_each (rpn_body self) rpn_start tokens) as [st|e] eqn:Hfor;
    simpl; [|exact Hloop].
  destruct Hloop as [Hout Hops].
  apply for_each_rpn_kinds in Hfor as [Kout Kops].
  destruct (drain_cases (ops st) (output st)) as [[Hno ->]|[_ ->]];
    [|reflexivity].
  split; [apply Forall_app; auto|].
  apply Forall_app. split; [exact Kout|].
  apply Forall_forall. intros t Ht. apply stack_entry_not_paren.
  - exact (proj1 (Forall_forall _ _) Kops t Ht).
  - intros ->. exact (Hno Ht).
Qed.

(** On a registered postfix sequence the evaluation loop can only raise
    "Insufficient values" or what an operator's function raises. *)
Lemma for_each_eval_registered tokens stack e :
  Forall (λ t, registered_token self t = true) tokens →
  Forall (λ t, postfix_token t = true) tokens →
  for_each (eval_body self) stack tokens = Raise e →
  e = ValueError InsufficientValues ∨ ∃ f, e = ArithmeticFailure f.
Proof.
  intros Hreg Hpost Hloop.
  apply for_each_Raise in Hloop as (pre & x & post & st & -> & _ & Hx).
  apply Forall_app in Hreg as [_ Hreg]. apply Forall_cons in Hreg as [Hreg _].
  apply Forall_app in Hpost as [_ Hpost].
  apply Forall_cons in Hpost as [Hpost _].
  destruct x as [v|sym| |]; try discriminate. simpl in Hx, Hreg.
  destruct st as [|b [|a st]]; try (injection Hx as <-; auto).
  apply has_true in Hreg as [op Hop].
  rewrite (apply_call _ _ _ _ _ Hop) in Hx. unfold call in Hx.
  destruct (func op a b); [|discriminate].
  injection Hx as <-. eauto.
Qed.

End PipelineFacts.

Lemma tokenise_registered self expression tokens :
  _tokenise self expression = Ok tokens →
  Forall (λ t, registered_token self t = true) tokens.
Proof.
  intros Htok. pose proof (tokenise_reached self expression) as Hreach.
  rewrite Htok in Hreach. destruct Hreach as (j & Hreach & _).
  apply reaches_invariant in Hreach as (_ & Hreg & _). exact Hreg.
Qed.

(** After a successful tokenisation the two later stages can fail in four
    ways only. *)
Lemma later_stages_Raise self expression tokens e :
  _tokenise self expression = Ok tokens →
  (rpn ← _to_rpn self tokens; _eval_rpn self rpn) = Raise e →
  e = ValueError MismatchedParentheses
  ∨ e = ValueError InsufficientValues
  ∨ e = ValueError InvalidExpression
  ∨ ∃ f, e = ArithmeticFailure f.
Proof.
  intros Htok Hlater. apply tokenise_registered in Htok.
  pose proof (to_rpn_registered self tokens Htok) as Hrpn.
  destruct (_to_rpn self tokens) as [rpn|e'] eqn:Hconv; simpl in Hlater.
  - destruct Hrpn as [Hreg Hpost]. unfold _eval_rpn in Hlater.
    apply bind_Raise in Hlater as [Hloop|(stack & _ & Hlen)].
    + destruct (for_each_eval_registered self rpn [] e Hreg Hpost Hloop)
        as [->|Hf]; auto.
    + destruct (negb _); [|discriminate]. injection Hlen as <-. auto.
  - injection Hlater as <-. auto.
Qed.

(** X10. Whitespace in front of an expression changes nothing but the
    positions reported: tokenising or evaluating [ws + s], for a [ws] made of
    whitespace only, gives what [s] gives, except that an "Unexpected
    character" error reports its position [len(ws)] further. *)
Theorem leading_whitespace (self : ExpressionParser) (ws s : string) :
  all_whitespace ws = true →
  _tokenise self (String.append ws s) =
    shift_result (String.length ws) (_tokenise self s)
  ∧ evaluate self (String.append ws s) =
      shift_result (String.length ws) (evaluate self s).
Proof.
  intros Hws. pose proof (tokenise_leading_whitespace self ws s Hws) as Htok.
  split; [exact Htok|].
  unfold evaluate. rewrite Htok.
  destruct (_tokenise self s) as [tokens|e] eqn:Hs; simpl; [|reflexivity].
  destruct (rpn ← _to_rpn self tokens; _eval_rpn self rpn) as [v|e]
    eqn:Hlater; [reflexivity|].
  destruct (later_stages_Raise self s tokens e Hs Hlater)
    as [->|[->|[->|[f ->]]]]; reflexivity.
Qed.

(** The theorem at ["  1 + a"]: position 4 of ["1 + a"] becomes 6. *)
Lemma leading_whitespace_witness :
  all_whitespace "  " = true
  ∧ _tokenise sample_parser "  1 + a" =
      shift_result 2 (_tokenise sample_parser "1 + a")
  ∧ evaluate sample_parser "  1 + a" =
      shift_result 2 (evaluate sample_parser "1 + a").
Proof.
  split; [reflexivity|].
  exact (leading_whitespace sample_parser "  " "1 + a" eq_refl).
Defined.

(** X11. [evaluate] fails in six ways only: "Unexpected character" (at an
    index of the expression, with the character found there), [float]
    refusing a literal, "Mismatched parentheses", "Insufficient values",
    "Invalid expression", or an exception raised by an operator's function.
    It never raises [KeyError], "Invalid token in RPN expression" or the
    registration error: the tokeniser only lets registered symbols
    through, and the converter drops every parenthesis. *)
Theorem evaluate_failures (self : ExpressionParser) (expression : string)
    (e : exn) :
  evaluate self expression = Raise e →
  (∃ i ch, e = ValueError (UnexpectedCharacter i ch)
           ∧ String.get i expression = Some ch)
  ∨ (∃ literal, e = ValueError (CouldNotConvert literal))
  ∨ e = ValueError MismatchedParentheses
  ∨ e = ValueError InsufficientValues
  ∨ e = ValueError InvalidExpression
  ∨ ∃ f, e = ArithmeticFailure f.
Proof.
  unfold evaluate. intros Heval.
  destruct (_tokenise self expression) as [tokens|e'] eqn:Htok;
    simpl in Heval.
  - destruct (later_stages_Raise self expression tokens e Htok Heval)
      as [->|[->|[->|Hf]]]; auto 10.
  - injection Heval as <-.
    pose proof (tokenise_reached self expression) as Hreach.
    rewrite Htok in Hreach.
    destruct Hreach as (j & c & tokens & Hreach & Hget & Hbody).
    apply tokenise_body_Raise in Hbody as [(-> & _)|(literal & -> & _)];
      eauto 10.
Qed.

(** The theorem at ["1 +"], which lacks an operand. *)
Lemma evaluate_failures_witness :
  evaluate sample_parser "1 +" = Raise (ValueError InsufficientValues)
  ∧ ((∃ i ch, ValueError InsufficientValues =
                ValueError (UnexpectedCharacter i ch)
              ∧ String.get i "1 +" = Some ch)
     ∨ (∃ literal, ValueError InsufficientValues =
                     ValueError (CouldNotConvert literal))
     ∨ ValueError InsufficientValues = ValueError MismatchedParentheses
     ∨ ValueError InsufficientValues = ValueError InsufficientValues
     ∨ ValueError InsufficientValues = ValueError InvalidExpression
     ∨ ∃ f, ValueError InsufficientValues = ArithmeticFailure f).
Proof.
  split; [reflexivity|].
  exact (evaluate_failures sample_parser "1 +" _ eq_refl).
Defined.

(** ** Parentheses and the converter *)

Lemma count_left_paren_zero (l : list Token) :
  length (List.filter is_left_paren l) = 0%nat ↔ LeftParenToken ∉ l.
Proof.
  induction l as [|t l IH]; simpl.
  - split; [intros _; apply not_elem_of_nil | reflexivity].
  - rewrite not_elem_of_cons. destruct t; simpl; rewrite ?IH;
      try (split; [intros H; split; [discriminate | exact H] | tauto]).
    split; [discriminate | intros [H _]; congruence].
Qed.

Lemma count_left_paren_popped (popped : list Token) :
  LeftParenToken ∉ popped → List.filter is_left_paren popped = [].
Proof.
  intros H. apply count_left_paren_zero in H.
  destruct (List.filter is_left_paren popped); [reflexivity | discriminate].
Qed.

Section Balance.

Variable self : ExpressionParser.

(** The conversion run from a state whose stack holds [d] left parentheses
    succeeds only on tokens balanced from depth [d], raises "Mismatched
    parentheses" only on tokens that are not, and otherwise stops at an
    unregistered symbol. *)
Lemma rpn_balance tokens st :
  match st' ← for_each (rpn_body self) st tokens;
        drain (ops st') (output st') with
  | Ok _ =>
      balanced (length (List.filter is_left_paren (ops st))) tokens = true
  | Raise e =>
      e = ValueError MismatchedParentheses
      ∧ balanced (length (List.filter is_left_paren (ops st))) tokens = false
      ∨ ∃ key, e = KeyError key
  end.
Proof.
  revert st. induction tokens as [|t tokens IH]; intros st.
  - simpl. destruct (drain_cases (ops st) (output st)) as [[Hno ->]|[Hin ->]].
    + apply count_left_paren_zero in Hno. rewrite Hno. reflexivity.
    + left. split; [reflexivity|].
      destruct (length _) eqn:Hlen; [|reflexivity].
      apply count_left_paren_zero in Hlen. contradiction.
  - cbn [for_each]. destruct t as [v|sym| |].
    + cbn [rpn_body mbind result_bind balanced].
      apply (IH (Build_rpn_state _ _ _)).
    + cbn [rpn_body balanced].
      match goal with
      | |- context [pop_by_precedence self sym (ops st) ?o] => set (out := o)
      end.
      destruct (pop_by_precedence self sym (ops st) out) as [[o out']|e]
        eqn:Hpop; cbn [mbind result_bind].
      * apply pop_by_precedence_spec in Hpop
          as (popped & Hsplit & _ & Hall & _).
        assert (Hcount : List.filter is_left_paren (ops st) =
                         List.filter is_left_paren o).
        { rewrite Hsplit, List.filter_app.
          rewrite count_left_paren_popped; [reflexivity|].
          intros Hin. apply (proj1 (Forall_forall _ _) Hall) in Hin
            as (top & _ & _ & [=] & _). }
        rewrite Hcount.
        apply (IH {| output := out'; ops := OperatorToken sym :: o;
                     prev := Some (OperatorToken sym) |}).
      * right. exact (pop_by_precedence_Raise _ _ _ _ _ Hpop).
    + cbn [rpn_body mbind result_bind balanced].
      apply (IH {| output := output st; ops := LeftParenToken :: ops st;
                   prev := Some LeftParenToken |}).
    + cbn [rpn_body balanced].
      destruct (pop_to_paren_spec (ops st) (output st))
        as (popped & Hsplit & _ & Hno & Hend).
      destruct (pop_to_paren (ops st) (output st)) as [o out].
      cbn [fst snd] in *.
      destruct Hend as [[-> Hnone]|[rest ->]].
      * cbn [mbind result_bind]. left. split; [reflexivity|].
        apply count_left_paren_zero in Hnone. rewrite Hnone. reflexivity.
      * cbn [mbind result_bind].
        rewrite Hsplit, List.filter_app, (count_left_paren_popped _ Hno).
        cbn [app List.filter is_left_paren length].
        apply (IH {| output := out; ops := rest;
                     prev := Some RightParenToken |}).
Qed.

End Balance.

(** X12. [_to_rpn] succeeds only on token lists whose parentheses are
    balanced and raises "Mismatched parentheses" only on lists whose
    parentheses are not; when every operator token carries a registered
    symbol (as the tokeniser's output does) these are the only two
    outcomes, so it succeeds exactly on the balanced lists. *)
Theorem to_rpn_balanced (self : ExpressionParser) (tokens : list Token) :
  ((∃ rpn, _to_rpn self tokens = Ok rpn) → balanced 0 tokens = true)
  ∧ (_to_rpn self tokens = Raise (ValueError MismatchedParentheses) →
     balanced 0 tokens = false)
  ∧ (Forall (λ t, registered_token self t = true) tokens →
     (balanced 0 tokens = true ↔ ∃ rpn, _to_rpn self tokens = Ok rpn)
     ∧ (balanced 0 tokens = false ↔
        _to_rpn self tokens = Raise (ValueError MismatchedParentheses))).
Proof.
  pose proof (rpn_balance self tokens rpn_start) as Hbal.
  fold (_to_rpn self tokens) in Hbal. simpl in Hbal.
  split; [|split].
  - intros [rpn Hrpn]. rewrite Hrpn in Hbal. exact Hbal.
  - intros Hrpn. rewrite Hrpn in Hbal.
    destruct Hbal as [[_ H]|[key [=]]]. exact H.
  - intros Hreg. pose proof (to_rpn_registered self tokens Hreg) as Honly.
    destruct (_to_rpn self tokens) as [rpn|e].
    + rewrite Hbal. split; split; eauto; discriminate.
    + subst e. destruct Hbal as [[_ H]|[key [=]]]. rewrite H.
      split; split; try reflexivity; try discriminate.
      intros [rpn [=]].
Qed.

(** The theorem at the tokens of ["(1))"]. *)
Lemma to_rpn_balanced_witness :
  _to_rpn sample_parser
    [LeftParenToken; NumberToken 1%float; RightParenToken; RightParenToken] =
    Raise (ValueError MismatchedParentheses)
  ∧ balanced 0
      [LeftParenToken; NumberToken 1%float; RightParenToken;
       RightParenToken] = false.
Proof.
  split; [reflexivity|].
  exact (proj1 (proj2 (to_rpn_balanced sample_parser
           [LeftParenToken; NumberToken 1%float; RightParenToken;
            RightParenToken])) eq_refl).
Defined.

(** ** What the converter keeps *)

Lemma filter_number_stack (l : list Token) :
  Forall (λ t, stack_entry t = true) l → List.filter is_number l = [].
Proof.
  induction 1 as [|t l Ht _ IH]; simpl; [reflexivity|].
  destruct t; try discriminate; exact IH.
Qed.

Lemma postfix_length (l : list Token) :
  Forall (λ t, postfix_token t = true) l →
  length l =
    (length (List.filter is_number l)
     + length (List.filter is_operator l))%nat.
Proof.
  induction 1 as [|t l Ht _ IH]; [reflexivity|].
  destruct t; try discriminate; simpl; rewrite IH; lia.
Qed.

Section Kept.

Variable self : ExpressionParser.

(** Over a run of the conversion loop: the numbers of the output grow by the
    operands of the tokens read, and the operators of the output and of the
    stack together by the operators read. *)
Lemma rpn_loop_kept tokens st st' :
  Forall (λ t, stack_entry t = true) (ops st) →
  for_each (rpn_body self) st tokens = Ok st' →
  Forall (λ t, stack_entry t = true) (ops st')
  ∧ List.filter is_number (output st') =
      List.filter is_number (output st) ++ operands (prev st) tokens
  ∧ List.filter is_operator (output st') ++ List.filter is_operator (ops st')
    ≡ₚ List.filter is_operator (output st)
        ++ List.filter is_operator (ops st)
        ++ List.filter is_operator tokens.
Proof.
  revert st. induction tokens as [|t tokens IH]; intros st Hops.
  - simpl. intros [= <-]. rewrite !app_nil_r. auto.
  - cbn [for_each]. destruct t as [v|sym| |].
    + cbn [rpn_body mbind result_bind]. intros H.
      apply IH in H as (Hst & Hnum & Hop); [|exact Hops].
      cbn [output ops prev] in *. split; [exact Hst|]. split.
      * rewrite Hnum, List.filter_app. cbn. rewrite <- app_assoc.
        reflexivity.
      * rewrite Hop, List.filter_app. cbn. rewrite app_nil_r. reflexivity.
    + cbn [rpn_body operands].
      set (zero := if String.eqb sym "-" && unary_position (prev st)
                   then [NumberToken 0%float] else []).
      assert (Hout : (if String.eqb sym "-" && unary_position (prev st)
                      then output st ++ [NumberToken 0%float]
                      else output st) = output st ++ zero).
      { unfold zero. destruct (_ && _); [reflexivity|].
        rewrite app_nil_r. reflexivity. }
      rewrite Hout.
      destruct (pop_by_precedence self sym (ops st) (output st ++ zero))
        as [[o out']|e] eqn:Hpop; cbn [mbind result_bind]; [|discriminate].
      apply pop_by_precedence_spec in Hpop
        as (popped & Hsplit & -> & Hall & _).
      assert (Hpop_num : List.filter is_number popped = []).
      { apply filter_number_stack. rewrite Hsplit in Hops.
        apply Forall_app in Hops as [H _]. exact H. }
      assert (Hzero_num : List.filter is_number zero = zero).
      { unfold zero. destruct (_ && _); reflexivity. }
      assert (Hzero_op : List.filter is_operator zero = []).
      { unfold zero. destruct (_ && _); reflexivity. }
      intros H. apply IH in H as (Hst & Hnum & Hop).
      * cbn [output ops prev] in *. split; [exact Hst|]. split.
        -- rewrite Hnum, !List.filter_app, Hpop_num, Hzero_num.
           rewrite app_nil_r, <- app_assoc. reflexivity.
        -- rewrite Hop, Hsplit, !List.filter_app, Hzero_op. cbn.
           rewrite app_nil_r, <- !app_assoc.
           apply Permutation_app_head, Permutation_app_head.
           apply Permutation_middle.
      * cbn [ops]. rewrite Hsplit in Hops.
        apply Forall_app in Hops as [_ Hrest].
        constructor; [reflexivity | exact Hrest].
    + cbn [rpn_body mbind result_bind]. intros H.
      apply IH in H as (Hst & Hnum & Hop);
        [|constructor; [reflexivity | exact Hops]].
      cbn [output ops prev] in *. split; [exact Hst|]. split.
      * rewrite Hnum. reflexivity.
      * rewrite Hop. reflexivity.
    + cbn [rpn_body].
      destruct (pop_to_paren_spec (ops st) (output st))
        as (popped & Hsplit & Hpopped & Hno & _).
      destruct (pop_to_paren (ops st) (output st)) as [o out].
      cbn [fst snd] in *.
      destruct o as [|[v|top| |] rest]; cbn [mbind result_bind];
        try discriminate.
      subst out. rewrite Hsplit in Hops.
      apply Forall_app in Hops as [Hpop Hrest].
      apply Forall_cons in Hrest as [_ Hrest].
      intros H. apply IH in H as (Hst & Hnum & Hop); [|exact Hrest].
      cbn [output ops prev] in *. split; [exact Hst|]. split.
      * rewrite Hnum, List.filter_app, (filter_number_stack _ Hpop).
        rewrite app_nil_r. reflexivity.
      * rewrite Hop, Hsplit, !List.filter_app. cbn.
        rewrite <- !app_assoc. reflexivity.
Qed.

End Kept.

Lemma to_rpn_kept (self : ExpressionParser) (tokens rpn : list Token) :
  _to_rpn self tokens = Ok rpn →
  List.filter is_number rpn = operands None tokens
  ∧ List.filter is_operator rpn ≡ₚ List.filter is_operator tokens
  ∧ length rpn =
      (length (operands None tokens)
       + length (List.filter is_operator tokens))%nat.
Proof.
  unfold _to_rpn. rewrite bind_Ok. intros (st & Hloop & Hdrain).
  pose proof (for_each_rpn_kinds self tokens st Hloop) as [Kout _].
  apply rpn_loop_kept in Hloop as (Hst & Hnum & Hop); [|constructor].
  simpl in Hnum, Hop.
  destruct (drain_cases (ops st) (output st)) as [[Hno H]|[_ H]];
    [|congruence].
  rewrite H in Hdrain. injection Hdrain as <-.
  assert (Hnums : List.filter is_number (output st ++ ops st) =
                  operands None tokens).
  { rewrite List.filter_app, (filter_number_stack _ Hst), app_nil_r.
    exact Hnum. }
  assert (Hops : List.filter is_operator (output st ++ ops st)
                 ≡ₚ List.filter is_operator tokens).
  { rewrite List.filter_app. exact Hop. }
  split; [exact Hnums|]. split; [exact Hops|].
  rewrite <- Hnums, <- (Permutation_length Hops).
  assert (Hall : Forall (λ t, postfix_token t = true) (output st ++ ops st)).
  { apply Forall_app. split; [exact Kout|].
    apply Forall_forall. intros t Ht. apply stack_entry_not_paren.
    - exact (proj1 (Forall_forall _ _) Hst t Ht).
    - intros ->. exact (Hno Ht). }
  exact (postfix_length _ Hall).
Qed.

(** X13. The postfix sequence [_to_rpn] returns keeps the operands and the
    operators of the infix tokens: its number tokens are, in the same
    order, the number tokens of the input with a zero for every unary [-];
    its operator tokens are the operator tokens of the input, each as often
    as it occurs there; and it holds nothing else. *)
Theorem to_rpn_keeps_tokens (self : ExpressionParser)
    (tokens rpn : list Token) :
  _to_rpn self tokens = Ok rpn →
  List.filter is_number rpn = operands None tokens
  ∧ List.filter is_operator rpn ≡ₚ List.filter is_operator tokens
  ∧ length rpn =
      (length (operands None tokens)
       + length (List.filter is_operator tokens))%nat.
Proof. apply to_rpn_kept. Qed.

(** The theorem at the tokens of ["-(1 + 2)"]. *)
Lemma to_rpn_keeps_tokens_witness :
  _to_rpn sample_parser
    [OperatorToken "-"; LeftParenToken; NumberToken 1%float;
     OperatorToken "+"; NumberToken 2%float; RightParenToken] =
    Ok [NumberToken 0%float; NumberToken 1%float; NumberToken 2%float;
        OperatorToken "+"; OperatorToken "-"]
  ∧ List.filter is_number
      [NumberToken 0%float; NumberToken 1%float; NumberToken 2%float;
       OperatorToken "+"; OperatorToken "-"] =
    operands None
      [OperatorToken "-"; LeftParenToken; NumberToken 1%float;
       OperatorToken "+"; NumberToken 2%float; RightParenToken]
  ∧ List.filter is_operator
      [NumberToken 0%float; NumberToken 1%float; NumberToken 2%float;
       OperatorToken "+"; OperatorToken "-"]
    ≡ₚ List.filter is_operator
         [OperatorToken "-"; LeftParenToken; NumberToken 1%float;
          OperatorToken "+"; NumberToken 2%float; RightParenToken]
  ∧ length
      [NumberToken 0%float; NumberToken 1%float; NumberToken 2%float;
       OperatorToken "+"; OperatorToken "-"] =
    (length (operands None
               [OperatorToken "-"; LeftParenToken; NumberToken 1%float;
                OperatorToken "+"; NumberToken 2%float; RightParenToken])
     + length (List.filter is_operator
                 [OperatorToken "-"; LeftParenToken; NumberToken 1%float;
                  OperatorToken "+"; NumberToken 2%float; RightParenToken]))%nat.
Proof.
  split; [reflexivity|].
  exact (to_rpn_keeps_tokens sample_parser
           [OperatorToken "-"; LeftParenToken; NumberToken 1%float;
            OperatorToken "+"; NumberToken 2%float; RightParenToken]
           _ eq_refl).
Defined.

(** ** Successful evaluations *)


(** X14. An expression that [evaluate] accepts has balanced parentheses and
    exactly one operand more than it has operators, a unary [-] counting
    for one operand (its zero) and one operator. *)
Theorem evaluate_success_shape (self : ExpressionParser)
    (expression : string) (v : pyobj) :
  evaluate self expression = Ok v →
  ∃ tokens,
    _tokenise self expression = Ok tokens
    ∧ balanced 0 tokens = true
    ∧ length (operands None tokens) =
        S (length (List.filter is_operator tokens)).
Proof.
  unfold evaluate. intros Heval.
  apply bind_Ok in Heval as (tokens & Htok & Heval).
  apply bind_Ok in Heval as (rpn & Hrpn & Heval).
  exists tokens. split; [exact Htok|]. split.
  - pose proof (rpn_balance self tokens rpn_start) as Hbal.
    fold (_to_rpn self tokens) in Hbal. rewrite Hrpn in Hbal. exact Hbal.
  - apply to_rpn_kept in Hrpn as (Hnum & Hop & _).
    unfold _eval_rpn in Heval.
    apply bind_Ok in Heval as (stack & Hloop & Hret).
    apply eval_loop_count in Hloop as [Hlen _].
    destruct (Nat.eqb_spec (length stack) 1) as [H1|H1]; [|discriminate].
    rewrite <- Hnum, <- (Permutation_length Hop). simpl in Hlen. lia.
Qed.

(** The theorem at ["-(1 + 2)"]: three operands, two operators. *)
Lemma evaluate_success_shape_witness :
  evaluate sample_parser "-(1 + 2)" = Ok (PyList [(-3)%float])
  ∧ ∃ tokens,
      _tokenise sample_parser "-(1 + 2)" = Ok tokens
      ∧ balanced 0 tokens = true
      ∧ length (operands None tokens) =
          S (length (List.filter is_operator tokens)).
Proof.
  split; [reflexivity|].
  exact (evaluate_success_shape sample_parser "-(1 + 2)" _ eq_refl).
Defined.

(** ** The history *)

(** X15. A history returns its records in the order they were added: after
    any sequence of [add] calls, [get_all] is what it was before followed by
    one record per call, each with the expression and the result it was
    given; after [clear] it is empty, and what is added then is all there
    is. *)
Theorem history_keeps_order (self : HistoryManager)
    (entries : list (string * pyobj)) :
  get_all (foldl (λ h entry, add h entry.1 entry.2) self entries) =
    get_all self
    ++ ((λ entry, {| record_expression := entry.1;
                     record_result := entry.2 |}) <$> entries)
  ∧ get_all (clear self) = []
  ∧ get_all (foldl (λ h entry, add h entry.1 entry.2) (clear self) entries) =
      (λ entry, {| record_expression := entry.1;
                   record_result := entry.2 |}) <$> entries.
Proof.
  assert (Hfold : ∀ h,
            get_all (foldl (λ h entry, add h entry.1 entry.2) h entries) =
            get_all h
            ++ ((λ entry, {| record_expression := entry.1;
                             record_result := entry.2 |}) <$> entries)).
  { induction entries as [|entry entries IH]; intros h; simpl.
    - rewrite app_nil_r. reflexivity.
    - rewrite IH. unfold get_all, add. simpl. rewrite <- app_assoc.
      reflexivity. }
  split; [apply Hfold|]. split; [reflexivity|]. rewrite Hfold. reflexivity.
Qed.

(** ** The session *)





Section Session.

Variable parser : ExpressionParser.


(** What follows a quitting line is never read. *)
Lemma repl_loop_quit before line after history :
  is_quit line = true →
  repl_loop parser history (before ++ line :: after) =
  repl_loop parser history (before ++ [line]).
Proof.
  intros Hquit. revert history.
  induction before as [|first before IH]; intros history.
  - unfold is_quit in Hquit. cbn [app repl_loop]. rewrite Hquit.
    destruct (String.eqb (strip line) "") eqn:Hblank; [|reflexivity].
    apply String.eqb_eq in Hblank. rewrite Hblank in Hquit.
    discriminate Hquit.
  - cbn [app repl_loop].
    destruct (String.eqb (strip first) ""); [rewrite IH; reflexivity|].
    destruct (_ || _); [reflexivity|].
    destruct (String.eqb (lower (strip first)) "history");
      [destruct (get_all history); rewrite IH; reflexivity|].
    destruct (String.eqb (lower (strip first)) "clear");
      [rewrite IH; reflexivity|].
    destruct (evaluate parser (strip first)); rewrite IH; reflexivity.
Qed.

(** The loop writes one farewell, last: [goodbye] when some line quits,
    [exiting] when the lines run out. *)
Lemma repl_loop_farewell lines history :
  ∃ body last,
    (repl_loop parser history lines).1 = body ++ [last]
    ∧ (goodbye ∉ body) ∧ (exiting ∉ body)
    ∧ (last = goodbye ∧ (∃ line, line ∈ lines ∧ is_quit line = true)
       ∨ last = exiting ∧ (∀ line, line ∈ lines → is_quit line = false)).
Proof.
  revert history. induction lines as [|line lines IH]; intros history.
  - exists [Prompt "> "], exiting. simpl. repeat split.
    + intros Hin. apply elem_of_cons in Hin as [[=]|Hin].
      exact (not_elem_of_nil _ Hin).
    + intros Hin. apply elem_of_cons in Hin as [[=]|Hin].
      exact (not_elem_of_nil _ Hin).
    + right. split; [reflexivity|]. intros l Hl.
      exfalso. exact (not_elem_of_nil _ Hl).
  - assert (Hgo : ∀ written h,
              is_quit line = false →
              (goodbye ∉ written) → (exiting ∉ written) →
              ∃ body last,
                (let '(later, final) := repl_loop parser h lines in
                 (Prompt "> " :: written ++ later, final)).1 = body ++ [last]
                ∧ (goodbye ∉ body) ∧ (exiting ∉ body)
                ∧ (last = goodbye
                   ∧ (∃ l, l ∈ line :: lines ∧ is_quit l = true)
                   ∨ last = exiting
                     ∧ (∀ l, l ∈ line :: lines → is_quit l = false))).
    { intros written h Hq Hg He.
      destruct (IH h) as (body & last & Hout & Hbg & Hbe & Hlast).
      destruct (repl_loop parser h lines) as [later final]. simpl in *.
      subst later. exists (Prompt "> " :: written ++ body), last.
      split; [simpl; rewrite <- app_assoc; reflexivity|].
      split; [|split].
      - intros Hin. apply elem_of_cons in Hin as [[=]|Hin].
        apply elem_of_app in Hin as [Hin|Hin]; auto.
      - intros Hin. apply elem_of_cons in Hin as [[=]|Hin].
        apply elem_of_app in Hin as [Hin|Hin]; auto.
      - destruct Hlast as [[-> (l & Hl & Hlq)]|[-> Hnone]].
        + left. split; [reflexivity|]. exists l.
          split; [apply elem_of_cons; auto | exact Hlq].
        + right. split; [reflexivity|]. intros l Hl.
          apply elem_of_cons in Hl as [->|Hl]; auto. }
    cbn [repl_loop]. unfold is_quit in Hgo.
    destruct (String.eqb (strip line) "") eqn:Hblank.
    { apply String.eqb_eq in Hblank. rewrite Hblank in *.
      apply Hgo; [reflexivity | apply not_elem_of_nil..]. }
    destruct (_ || _) eqn:Hquit.
    { exists [Prompt "> "], goodbye. simpl. repeat split.
      - intros Hin. apply elem_of_cons in Hin as [[=]|Hin].
        exact (not_elem_of_nil _ Hin).
      - intros Hin. apply elem_of_cons in Hin as [[=]|Hin].
        exact (not_elem_of_nil _ Hin).
      - left. split; [reflexivity|]. exists line.
        split; [apply elem_of_cons; auto | exact Hquit]. }
    destruct (String.eqb (lower (strip line)) "history").
    { unfold get_all. destruct (_records history) as [|r records].
      - apply Hgo; [reflexivity|..];
          intros Hin; apply elem_of_cons in Hin as [[=]|Hin];
          exact (not_elem_of_nil _ Hin).
      - apply Hgo; [reflexivity|..];
          intros Hin;
          apply elem_of_lookup_imap in Hin as (i & r' & [=] & _). }
    destruct (String.eqb (lower (strip line)) "clear").
    { apply Hgo; [reflexivity|..];
        intros Hin; apply elem_of_cons in Hin as [[=]|Hin];
        exact (not_elem_of_nil _ Hin). }
    destruct (evaluate parser (strip line)) as [value|exc];
      (apply Hgo; [reflexivity|..];
       intros Hin; apply elem_of_cons in Hin as [[=]|Hin];
       exact (not_elem_of_nil _ Hin)).
Qed.

End Session.

Lemma run_unfold pow lines :
  run pow lines =
  Ok (banner ++ (repl_loop (default_parser pow) HistoryManager_init lines).1).
Proof. reflexivity. Qed.


(** X17. A session writes exactly one farewell, as its last text:
    "Goodbye." when one of the lines is [quit] or [exit] (in any case, with
    any surrounding whitespace), and the "Exiting PyCalc." text when the
    input ends without one. *)
Theorem session_farewell (pow : Number → Number → func_exn + Number)
    (lines : list string) :
  ∃ body last,
    run pow lines = Ok (banner ++ body ++ [last])
    ∧ (goodbye ∉ body) ∧ (exiting ∉ body)
    ∧ (last = goodbye ∧ (∃ line, line ∈ lines ∧ is_quit line = true)
       ∨ last = exiting ∧ (∀ line, line ∈ lines → is_quit line = false)).
Proof.
  rewrite run_unfold.
  destruct (repl_loop_farewell (default_parser pow) lines HistoryManager_init)
    as (body & last & -> & H).
  exists body, last. split; [reflexivity | exact H].
Qed.

(** X18. Nothing that is typed after a quitting line has any effect: the
    session is the one in which that line is the last. *)
Theorem session_stops_at_quit (pow : Number → Number → func_exn + Number)
    (before : list string) (line : string) (after : list string) :
  is_quit line = true →
  run pow (before ++ line :: after) = run pow (before ++ [line]).
Proof.
  intros Hquit. rewrite !run_unfold.
  rewrite (repl_loop_quit _ _ _ after _ Hquit). reflexivity.
Qed.

(** The theorem at a session in which [" Exit "] is followed by ["3"]. *)
Lemma session_stops_at_quit_witness :
  is_quit " Exit " = true
  ∧ run sample_pow (["1+2"] ++ " Exit " :: ["3"]) =
      run sample_pow (["1+2"] ++ [" Exit "]).
Proof.
  split; [reflexivity|].
  exact (session_stops_at_quit sample_pow ["1+2"] " Exit " ["3"] eq_refl).
Defined.

Section SessionParts.

Variable parser : ExpressionParser.

(** The lines before the first quitting line are processed on their own:
    they write [written] and leave a history from which the rest of the
    session goes on. *)
Lemma repl_loop_app before history :
  Forall (λ line, is_quit line = false) before →
  ∃ written reached,
    ∀ rest,
      repl_loop parser history (before ++ rest) =
      (written ++ (repl_loop parser reached rest).1,
       (repl_loop parser reached rest).2).
Proof.
  intros Hbefore. revert history.
  induction Hbefore as [|first before Hfirst _ IH]; intros history.
  - exists [], history. intros rest. simpl.
    destruct (repl_loop parser history rest). reflexivity.
  - assert (Hgo : ∀ w h,
              ∃ written reached,
                ∀ rest,
                  (let '(later, final) :=
                     repl_loop parser h (before ++ rest) in
                   (Prompt "> " :: w ++ later, final)) =
                  (written ++ (repl_loop parser reached rest).1,
                   (repl_loop parser reached rest).2)).
    { intros w h. destruct (IH h) as (written & reached & Hrest).
      exists (Prompt "> " :: w ++ written), reached. intros rest.
      rewrite Hrest. simpl. rewrite <- app_assoc. reflexivity. }
    unfold is_quit in Hfirst. cbn [app repl_loop]. rewrite Hfirst.
    destruct (String.eqb (strip first) ""); [exact (Hgo [] history)|].
    destruct (String.eqb (lower (strip first)) "history").
    { destruct (get_all history) as [|r records].
      - exact (Hgo [Literal "(no history)"] history).
      - exact (Hgo (imap (λ i record, HistoryLine (S i) record)
                      (r :: records)) history). }
    destruct (String.eqb (lower (strip first)) "clear");
      [exact (Hgo [Literal "History cleared."] (clear history))|].
    destruct (evaluate parser (strip first)) as [value|exc].
    + exact (Hgo [ResultText value] (add history (strip first) value)).
    + exact (Hgo [ErrorText exc] history).
Qed.

End SessionParts.

(** X19. An expression that fails to evaluate costs the session one error
    line and nothing else: with no quitting line before it, the session
    writes what it writes without that line, plus a prompt and the error at
    the place of the line; the results and the history shown afterwards
    are the same. *)
Theorem session_survives_errors (pow : Number → Number → func_exn + Number)
    (before : list string) (line : string) (after : list string)
    (exc : exn) :
  Forall (λ l, is_quit l = false) before →
  is_expression line = true →
  evaluate (default_parser pow) (strip line) = Raise exc →
  ∃ out1 out2,
    run pow (before ++ after) = Ok (out1 ++ out2)
    ∧ run pow (before ++ line :: after) =
        Ok (out1 ++ [Prompt "> "; ErrorText exc] ++ out2).
Proof.
  intros Hbefore Hexpr Heval. rewrite !run_unfold.
  destruct (repl_loop_app (default_parser pow) before HistoryManager_init
              Hbefore) as (written & reached & Hrest).
  rewrite !Hrest. cbn [fst].
  exists (banner ++ written), (repl_loop (default_parser pow) reached after).1.
  split; [rewrite <- app_assoc; reflexivity|].
  unfold is_expression, is_quit in Hexpr.
  apply andb_true_iff in Hexpr as [Hexpr Hclear].
  apply andb_true_iff in Hexpr as [Hexpr Hhist].
  apply andb_true_iff in Hexpr as [Hblank Hquit].
  apply negb_true_iff in Hblank, Hquit, Hhist, Hclear.
  cbn [repl_loop]. rewrite Hblank, Hquit, Hhist, Hclear, Heval.
  destruct (repl_loop (default_parser pow) reached after) as [later final].
  cbn [fst]. rewrite <- !app_assoc. reflexivity.
Qed.

(** The theorem at a session in which ["1 / 0"] is typed between two
    additions. *)
Lemma session_survives_errors_witness :
  Forall (λ l, is_quit l = false) ["1 + 2"]
  ∧ is_expression "1 / 0" = true
  ∧ evaluate (default_parser sample_pow) (strip "1 / 0") =
      Raise (ArithmeticFailure ZeroDivisionError)
  ∧ ∃ out1 out2,
      run sample_pow (["1 + 2"] ++ ["2 + 2"; "history"]) = Ok (out1 ++ out2)
      ∧ run sample_pow (["1 + 2"] ++ "1 / 0" :: ["2 + 2"; "history"]) =
          Ok (out1
              ++ [Prompt "> ";
                  ErrorText (ArithmeticFailure ZeroDivisionError)]
              ++ out2).
Proof.
  assert (Hbefore : Forall (λ l, is_quit l = false) ["1 + 2"]).
  { repeat constructor. }
  split; [exact Hbefore|]. split; [reflexivity|]. split; [reflexivity|].
  exact (session_survives_errors sample_pow ["1 + 2"] "1 / 0"
           ["2 + 2"; "history"] _ Hbefore eq_refl eq_refl).
Defined.

(** X20. After a [clear] the session goes on like a new one: with no
    quitting line before it, what is written after "History cleared." is
    what a fresh session on the remaining lines writes after its banner. *)
Theorem session_after_clear (pow : Number → Number → func_exn + Number)
    (before : list string) (line : string) (after : list string) :
  Forall (λ l, is_quit l = false) before →
  is_clear line = true →
  ∃ out1 out2,
    run pow (before ++ line :: after) =
      Ok (out1 ++ [Prompt "> "; Literal "History cleared."] ++ out2)
    ∧ run pow after = Ok (banner ++ out2).
Proof.
  intros Hbefore Hclear. rewrite !run_unfold.
  destruct (repl_loop_app (default_parser pow) before HistoryManager_init
              Hbefore) as (written & reached & Hrest).
  rewrite Hrest. cbn [fst].
  exists (banner ++ written),
    (repl_loop (default_parser pow) HistoryManager_init after).1.
  split; [|reflexivity].
  unfold is_clear in Hclear. apply String.eqb_eq in Hclear.
  cbn [repl_loop]. rewrite Hclear.
  assert (Hstrip : String.eqb (strip line) "" = false).
  { destruct (strip line); [discriminate Hclear | reflexivity]. }
  rewrite Hstrip. cbn [String.eqb Ascii.eqb Bool.eqb orb].
  change (clear reached) with HistoryManager_init.
  destruct (repl_loop (default_parser pow) HistoryManager_init after)
    as [later final].
  cbn [fst]. rewrite <- !app_assoc. reflexivity.
Qed.

(** The theorem at a session that clears after one addition. *)
Lemma session_after_clear_witness :
  Forall (λ l, is_quit l = false) ["1 + 2"]
  ∧ is_clear "Clear" = true
  ∧ ∃ out1 out2,
      run sample_pow (["1 + 2"] ++ "Clear" :: ["history"]) =
        Ok (out1 ++ [Prompt "> "; Literal "History cleared."] ++ out2)
      ∧ run sample_pow ["history"] = Ok (banner ++ out2).
Proof.
  assert (Hbefore : Forall (λ l, is_quit l = false) ["1 + 2"]).
  { repeat constructor. }
  split; [exact Hbefore|]. split; [reflexivity|].
  exact (session_after_clear sample_pow ["1 + 2"] "Clear" ["history"]
           Hbefore eq_refl).
Defined.

(** ** Precedence, parentheses and new operators *)

(** X21. Of two registered operators the one of strictly higher precedence
    binds tighter, whichever comes first: [a lo b hi c] becomes the postfix
    [a b c hi lo], and [a hi b lo c] becomes [a b hi c lo]. *)
Theorem precedence_binds_tighter (self : ExpressionParser) (lo hi : string)
    (lo_op hi_op : Operation) (a b c : Number) :
  get (engine self) lo = Ok lo_op →
  get (engine self) hi = Ok hi_op →
  precedence lo_op < precedence hi_op →
  _to_rpn self [NumberToken a; OperatorToken lo; NumberToken b;
                OperatorToken hi; NumberToken c] =
    Ok [NumberToken a; NumberToken b; NumberToken c; OperatorToken hi;
        OperatorToken lo]
  ∧ _to_rpn self [NumberToken a; OperatorToken hi; NumberToken b;
                  OperatorToken lo; NumberToken c] =
      Ok [NumberToken a; NumberToken b; OperatorToken hi; NumberToken c;
          OperatorToken lo].
Proof.
  intros Hlo Hhi Hprec. unfold _to_rpn. split.
  - cbn [for_each rpn_body mbind result_bind prev ops output rpn_start
         unary_position pop_by_precedence].
    rewrite !andb_false_r.
    cbn [for_each rpn_body mbind result_bind prev ops output rpn_start
         unary_position pop_by_precedence].
    rewrite Hlo, Hhi. cbn [mbind result_bind].
    destruct (Z.geb_spec (precedence lo_op) (precedence hi_op)) as [Hge|_];
      [lia | reflexivity].
  - cbn [for_each rpn_body mbind result_bind prev ops output rpn_start
         unary_position pop_by_precedence].
    rewrite !andb_false_r.
    cbn [for_each rpn_body mbind result_bind prev ops output rpn_start
         unary_position pop_by_precedence].
    rewrite Hlo, Hhi. cbn [mbind result_bind].
    destruct (Z.geb_spec (precedence hi_op) (precedence lo_op)) as [_|Hlt];
      [reflexivity | lia].
Qed.

(** The theorem at [1 + 2 * 3] and [1 * 2 + 3] on the default
    operations. *)
Lemma precedence_binds_tighter_witness :
  _to_rpn sample_parser
    [NumberToken 1%float; OperatorToken "+"; NumberToken 2%float;
     OperatorToken "*"; NumberToken 3%float] =
    Ok [NumberToken 1%float; NumberToken 2%float; NumberToken 3%float;
        OperatorToken "*"; OperatorToken "+"]
  ∧ _to_rpn sample_parser
      [NumberToken 1%float; OperatorToken "*"; NumberToken 2%float;
       OperatorToken "+"; NumberToken 3%float] =
      Ok [NumberToken 1%float; NumberToken 2%float; OperatorToken "*";
          NumberToken 3%float; OperatorToken "+"].
Proof.
  refine (precedence_binds_tighter sample_parser "+" "*"
            {| symbol := "+"; func := λ a b, inr (a + b)%float;
               precedence := 1; associative := true |}
            {| symbol := "*"; func := λ a b, inr (a * b)%float;
               precedence := 2; associative := true |}
            1%float 2%float 3%float eq_refl eq_refl _).
  simpl. lia.
Defined.

(** X22. Parentheses group whatever the precedences: [( a s1 b ) s2 c]
    becomes the postfix [a b s1 c s2] and [a s1 ( b s2 c )] becomes
    [a b c s2 s1], for any two operator symbols. *)
Theorem parentheses_group (self : ExpressionParser) (s1 s2 : string)
    (a b c : Number) :
  _to_rpn self [LeftParenToken; NumberToken a; OperatorToken s1;
                NumberToken b; RightParenToken; OperatorToken s2;
                NumberToken c] =
    Ok [NumberToken a; NumberToken b; OperatorToken s1; NumberToken c;
        OperatorToken s2]
  ∧ _to_rpn self [NumberToken a; OperatorToken s1; LeftParenToken;
                  NumberToken b; OperatorToken s2; NumberToken c;
                  RightParenToken] =
      Ok [NumberToken a; NumberToken b; NumberToken c; OperatorToken s2;
          OperatorToken s1].
Proof.
  unfold _to_rpn. split;
    cbn [for_each rpn_body mbind result_bind prev ops output rpn_start
         unary_position pop_by_precedence pop_to_paren];
    rewrite !andb_false_r;
    cbn [for_each rpn_body mbind result_bind prev ops output rpn_start
         unary_position pop_by_precedence pop_to_paren app drain];
    reflexivity.
Qed.

Lemma reaches_end self expression j tokens :
  reaches self expression j tokens →
  String.get j expression = None →
  _tokenise self expression = Ok tokens.
Proof.
  intros Hreach Hget. pose proof (reaches_run _ _ _ _ Hreach) as Hrun.
  destruct (String.length expression - j)%nat; simpl in Hrun;
    rewrite Hget in Hrun; congruence.
Qed.

(** X23. A newly registered single-character operator is usable at once:
    for a symbol that is not whitespace, a digit, a dot or a parenthesis,
    the parser over the engine [register] returns tokenises ["7c2"] into
    [7 c 2] and evaluates it by calling the registered function on 7 and
    2. *)
Theorem registered_operator_usable (self self' : OperationEngine)
    (c : ascii) (f : Number → Number → func_exn + Number) (p : Z)
    (a : bool) :
  isspace c = false → isdigit c = false →
  c ≠ "."%char → c ≠ "("%char → c ≠ ")"%char →
  register self (String c "") f p a = Ok self' →
  _tokenise {| engine := self' |} (String "7" (String c (String "2" ""))) =
    Ok [NumberToken 7%float; OperatorToken (String c "");
        NumberToken 2%float]
  ∧ evaluate {| engine := self' |} (String "7" (String c (String "2" ""))) =
      match f 7%float 2%float with
      | inr v => Ok (PyList [v])
      | inl e => Raise (ArithmeticFailure e)
      end.
Proof.
  intros Hsp Hdig Hdot Hl Hr Hreg.
  rewrite register_single in Hreg by reflexivity. injection Hreg as <-.
  apply Ascii.eqb_neq in Hdot, Hl, Hr.
  set (parser := {| engine := _ |}).
  set (expression := String "7" (String c (String "2" ""))).
  assert (Hget : get (engine parser) (String c "") =
                 Ok {| symbol := String c ""; func := f; precedence := p;
                       associative := a |}).
  { unfold get. simpl. rewrite lookup_insert_eq. reflexivity. }
  assert (Hhas : has (engine parser) (String c "") = true).
  { apply has_true. eauto. }
  assert (H0 : tokenise_body parser expression 0 "7" [] =
               Ok (1%nat, [NumberToken 7%float])).
  { unfold tokenise_body.
    change (isspace "7") with false. cbv iota.
    change (starts_number expression 0 "7") with true. cbv iota zeta.
    change (slice expression (0 + 1) (String.length expression))
      with (String c "2").
    cbn [scan_number]. rewrite Hdig, Hdot. cbn [andb]. reflexivity. }
  assert (H1 : tokenise_body parser expression 1 c [NumberToken 7%float] =
               Ok (2%nat, [NumberToken 7%float; OperatorToken (String c "")])).
  { unfold tokenise_body, starts_number. rewrite Hsp, Hdig, Hdot, Hl, Hr, Hhas.
    reflexivity. }
  assert (H2 : tokenise_body parser expression 2 "2"
                 [NumberToken 7%float; OperatorToken (String c "")] =
               Ok (3%nat, [NumberToken 7%float; OperatorToken (String c "");
                           NumberToken 2%float])).
  { reflexivity. }
  assert (Htok : _tokenise parser expression =
                 Ok [NumberToken 7%float; OperatorToken (String c "");
                     NumberToken 2%float]).
  { apply (reaches_end parser expression 3); [|reflexivity].
    apply (reaches_next _ _ 2 "2" _ _ _) with (3 := H2); [|reflexivity].
    apply (reaches_next _ _ 1 c _ _ _) with (3 := H1); [|reflexivity].
    apply (reaches_next _ _ 0 "7" _ _ _) with (3 := H0); [|reflexivity].
    apply reaches_start. }
  split; [exact Htok|].
  unfold evaluate. rewrite Htok. cbn [mbind result_bind].
  unfold _to_rpn.
  cbn [for_each rpn_body mbind result_bind prev ops output rpn_start
       unary_position pop_by_precedence].
  rewrite andb_false_r.
  cbn [for_each rpn_body mbind result_bind prev ops output rpn_start
       unary_position pop_by_precedence drain app].
  unfold _eval_rpn. cbn [for_each eval_body mbind result_bind].
  rewrite (apply_call _ _ _ _ _ Hget). unfold call. cbn [func].
  destruct (f 7%float 2%float); reflexivity.
Qed.

(** The theorem at ["%"] registered over the default operations. *)
Lemma registered_operator_usable_witness :
  register (engine sample_parser) "%" (λ a b, inr (a - b * 3)%float) 2 true =
    Ok {| _operations :=
            <["%" := {| symbol := "%";
                        func := λ a b, inr (a - b * 3)%float;
                        precedence := 2; associative := true |}]>
              (default_operations sample_pow) |}
  ∧ evaluate
      {| engine :=
           {| _operations :=
                <["%" := {| symbol := "%";
                            func := λ a b, inr (a - b * 3)%float;
                            precedence := 2; associative := true |}]>
                  (default_operations sample_pow) |} |} "7%2" =
      Ok (PyList [1%float]).
Proof.
  split; [reflexivity|].
  refine (proj2 (registered_operator_usable (engine sample_parser) _ "%"
                   (λ a b, inr (a - b * 3)%float) 2 true
                   eq_refl eq_refl _ _ _ eq_refl)); discriminate.
Defined.

(** ** Trailing whitespace *)

Lemma isspace_not_number (ch : ascii) :
  isspace ch = true → isdigit ch = false ∧ Ascii.eqb ch "." = false.
Proof.
  destruct ch as [[] [] [] [] [] [] [] []]; vm_compute; intros H;
    first [discriminate H | split; reflexivity].
Qed.

Lemma append_cons (ch : ascii) (s t : string) :
  String.append (String ch s) t = String ch (String.append s t).
Proof. reflexivity. Qed.

Lemma append_length (s t : string) :
  String.length (String.append s t) = (String.length s + String.length t)%nat.
Proof.
  induction s as [|ch s IH]; [reflexivity|].
  rewrite append_cons. simpl. rewrite IH. reflexivity.
Qed.

Lemma get_append_l (s t : string) (i : nat) :
  (i < String.length s)%nat →
  String.get i (String.append s t) = String.get i s.
Proof.
  revert i. induction s as [|ch s IH]; intros i Hi; simpl in Hi; [lia|].
  rewrite append_cons. destruct i as [|i]; simpl; [reflexivity|].
  apply IH. lia.
Qed.

Lemma get_append_r (s t : string) (k : nat) :
  String.get (String.length s + k) (String.append s t) = String.get k t.
Proof.
  induction s as [|ch s IH]; [reflexivity|].
  rewrite append_cons. simpl. exact IH.
Qed.

Lemma substring_append_l (s t : string) (a m : nat) :
  (a + m ≤ String.length s)%nat →
  substring a m (String.append s t) = substring a m s.
Proof.
  revert a m. induction s as [|ch s IH]; intros a m Hle; simpl in Hle.
  - assert (a = 0%nat) as -> by lia. assert (m = 0%nat) as -> by lia.
    destruct t; reflexivity.
  - rewrite append_cons. destruct a as [|a].
    + destruct m as [|m]; simpl; [reflexivity|]. rewrite IH by lia.
      reflexivity.
    + simpl. apply IH. lia.
Qed.

Lemma substring_whole (s : string) : substring 0 (String.length s) s = s.
Proof. induction s as [|ch s IH]; simpl; [|rewrite IH]; reflexivity. Qed.

(** The rest of [s + t] from an index of [s] is the rest of [s], then
    [t]. *)
Lemma suffix_append (s t : string) (a : nat) :
  (a ≤ String.length s)%nat →
  substring a (String.length (String.append s t) - a) (String.append s t) =
  String.append (substring a (String.length s - a) s) t.
Proof.
  revert a. induction s as [|ch s IH]; intros a Ha; simpl in Ha.
  - assert (a = 0%nat) as -> by lia.
    change (String.append "" t) with t. rewrite Nat.sub_0_r.
    rewrite substring_whole. destruct t; reflexivity.
  - rewrite append_cons. destruct a as [|a].
    + rewrite !Nat.sub_0_r.
      change (String.length (String ch (String.append s t)))
        with (S (String.length (String.append s t))).
      change (String.length (String ch s)) with (S (String.length s)).
      cbn [substring]. rewrite !substring_whole. reflexivity.
    + simpl. apply IH. lia.
Qed.

(** A literal's scan stops at whitespace as it stops at the end. *)
Lemma scan_number_append rest ws i has_dot :
  all_whitespace ws = true →
  scan_number (String.append rest ws) i has_dot = scan_number rest i has_dot.
Proof.
  intros Hws. revert i has_dot.
  induction rest as [|ch rest IH]; intros i has_dot.
  - change (String.append "" ws) with ws.
    destruct ws as [|w ws]; [reflexivity|]. simpl in Hws.
    apply andb_true_iff in Hws as [Hw _].
    apply isspace_not_number in Hw as [Hdig Hdot].
    simpl. rewrite Hdig, Hdot. reflexivity.
  - rewrite append_cons. simpl. rewrite !IH. reflexivity.
Qed.

Section TrailingWhitespace.

Variable self : ExpressionParser.
Variable s ws : string.
Hypothesis Hws : all_whitespace ws = true.

Lemma digit_follows_append i :
  (i < String.length s)%nat →
  digit_follows (String.append s ws) i = digit_follows s i.
Proof.
  intros Hi. unfold digit_follows.
  destruct (Nat.lt_ge_cases (i + 1) (String.length s)) as [Hlt|Hge].
  - rewrite get_append_l by exact Hlt. reflexivity.
  - assert (Hnone : String.get (i + 1) s = None)
      by (apply get_None_length; exact Hge).
    rewrite Hnone.
    assert (i + 1 = String.length s + 0)%nat as -> by lia.
    rewrite get_append_r.
    destruct ws as [|w ws']; [reflexivity|]. simpl in Hws.
    apply andb_true_iff in Hws as [Hw _].
    apply isspace_not_number in Hw as [Hdig _]. simpl. exact Hdig.
Qed.

(** An iteration within [s] does not see what follows [s]. *)
Lemma tokenise_body_append i ch tokens :
  (i < String.length s)%nat →
  tokenise_body self (String.append s ws) i ch tokens =
  tokenise_body self s i ch tokens.
Proof.
  intros Hi. unfold tokenise_body, starts_number.
  rewrite (digit_follows_append i Hi).
  destruct (isspace ch); [reflexivity|].
  destruct (isdigit ch || Ascii.eqb ch "." && digit_follows s i);
    [|reflexivity].
  cbv zeta. unfold slice.
  rewrite (suffix_append s ws (i + 1)) by lia.
  rewrite (scan_number_append _ _ _ _ Hws).
  pose proof (scan_number_ge
                (substring (i + 1) (String.length s - (i + 1)) s) (i + 1)
                (Ascii.eqb ch ".")) as Hge.
  pose proof (scan_number_le
                (substring (i + 1) (String.length s - (i + 1)) s) (i + 1)
                (Ascii.eqb ch ".")) as Hle.
  pose proof (substring_length (i + 1) (String.length s - (i + 1)) s)
    as Hsub.
  set (j := scan_number (substring (i + 1) (String.length s - (i + 1)) s)
              (i + 1) (Ascii.eqb ch ".")) in *.
  rewrite substring_append_l by lia. reflexivity.
Qed.

Lemma reaches_append i tokens :
  reaches self s i tokens → reaches self (String.append s ws) i tokens.
Proof.
  induction 1 as [|i ch tokens i' tokens' Hreach IH Hget Hbody].
  - apply reaches_start.
  - pose proof (get_Some_length _ _ _ Hget) as Hi.
    apply (reaches_next _ _ i ch tokens); [exact IH | |].
    + rewrite get_append_l by exact Hi. exact Hget.
    + rewrite tokenise_body_append by exact Hi. exact Hbody.
Qed.

End TrailingWhitespace.

(** Once at the end of [s], the scan only skips the whitespace after it. *)
Lemma reaches_skip self s ws tokens k :
  all_whitespace ws = true →
  reaches self (String.append s ws) (String.length s) tokens →
  (k ≤ String.length ws)%nat →
  reaches self (String.append s ws) (String.length s + k) tokens.
Proof.
  intros Hws Hstart. induction k as [|k IH]; intros Hk.
  - rewrite Nat.add_0_r. exact Hstart.
  - assert (Hget : ∃ w, String.get k ws = Some w ∧ isspace w = true).
    { clear -Hws Hk. revert k Hk.
      induction ws as [|w ws IH]; intros k Hk; simpl in Hk; [lia|].
      simpl in Hws. apply andb_true_iff in Hws as [Hw Hrest].
      destruct k as [|k]; simpl; [eauto|]. apply IH; [exact Hrest | lia]. }
    destruct Hget as (w & Hget & Hw).
    apply (reaches_next _ _ (String.length s + k) w tokens).
    + apply IH. lia.
    + rewrite get_append_r. exact Hget.
    + unfold tokenise_body. rewrite Hw.
      replace (String.length s + S k)%nat
        with (String.length s + k + 1)%nat by lia.
      reflexivity.
Qed.

(** X24. Whitespace after an expression has no effect: tokenising or
    evaluating [s + ws], for a [ws] made of whitespace only, gives exactly
    what [s] gives, reported positions included. *)
Theorem trailing_whitespace (self : ExpressionParser) (s ws : string) :
  all_whitespace ws = true →
  _tokenise self (String.append s ws) = _tokenise self s
  ∧ evaluate self (String.append s ws) = evaluate self s.
Proof.
  intros Hws.
  assert (Htok : _tokenise self (String.append s ws) = _tokenise self s).
  { pose proof (tokenise_reached self s) as Hreach.
    destruct (_tokenise self s) as [tokens|e].
    - destruct Hreach as (j & Hreach & Hnone).
      pose proof (reaches_invariant _ _ _ _ Hreach) as ((_ & Hle) & _).
      apply get_None_length in Hnone.
      assert (j = String.length s) as -> by lia.
      apply (reaches_end self _ (String.length s + String.length ws)).
      + apply reaches_skip; [exact Hws | | lia].
        apply reaches_append; assumption.
      + apply get_None_length. rewrite append_length. lia.
    - destruct Hreach as (j & ch & tokens & Hreach & Hget & Hbody).
      pose proof (get_Some_length _ _ _ Hget) as Hj.
      apply (reaches_raise self _ j ch tokens).
      + apply reaches_append; assumption.
      + rewrite get_append_l by exact Hj. exact Hget.
      + rewrite tokenise_body_append by assumption. exact Hbody. }
  split; [exact Htok|]. unfold evaluate. rewrite Htok. reflexivity.
Qed.

(** The theorem at ["1 + a  "]. *)
Lemma trailing_whitespace_witness :
  all_whitespace "  " = true
  ∧ _tokenise sample_parser "1 + a  " = _tokenise sample_parser "1 + a"
  ∧ evaluate sample_parser "1 + a  " = evaluate sample_parser "1 + a".
Proof.
  split; [reflexivity|].
  exact (trailing_whitespace sample_parser "1 + a" "  " eq_refl).
Defined.

